(** * sds-middleware: job lifecycle, worker pipeline and download tokens

    Shallow embedding of
    - [src/app/core/download_tokens.py] and the token endpoints of
      [src/app/worker.py] (module [Tokens]);
    - the submission handler [AsyncSDSFilePullHandler.get] of
      [src/async/async_api_server.py] (module [Gateway]);
    - the queue consumer [Worker.callback] of [src/async/worker.py]
      (module [Worker]).

    Time is an integer number of microseconds (Python [datetime] has
    microsecond resolution).  Database tables are lists of rows; an SQL
    [UPDATE ... WHERE] is a [map] over the rows. *)

From Stdlib Require Import ZArith QArith List String Ascii Bool Lia Permutation.
Import ListNotations.

Local Open Scope Z_scope.

Definition us_per_sec : Z := 1000000.
Definition us_per_hour : Z := 3600 * us_per_sec.
Definition us_per_min : Z := 60 * us_per_sec.

(** ** Download tokens *)
Module Tokens.

Inductive TokenStatus := ACTIVE | DISABLED | EXPIRED.

Definition TokenStatus_eqb (a b : TokenStatus) : bool :=
  match a, b with
  | ACTIVE, ACTIVE | DISABLED, DISABLED | EXPIRED, EXPIRED => true
  | _, _ => false
  end.

(** A row of [download_tokens], as read back into [DownloadToken]. *)
Record DownloadToken := mkToken {
  token_id : Z;
  token : string;
  job_id : Z;
  status : TokenStatus;
  download_count : Z;
  max_downloads : Z;
  created_time : Z;
  expires_at : Z;
  last_download_time : option Z;
  last_download_ip : option string
}.

(** [DownloadToken.is_valid]; [now] is [datetime.now()]. *)
Definition is_valid (now : Z) (t : DownloadToken) : bool :=
  if negb (TokenStatus_eqb (status t) ACTIVE) then false
  else if now >=? expires_at t then false
  else if download_count t >=? max_downloads t then false
  else true.

(** [DownloadToken.should_expire]. *)
Definition should_expire (now : Z) (t : DownloadToken) : bool :=
  (now >=? expires_at t) || (download_count t >=? max_downloads t).

(** [TokenManager.create_token_data] followed by the [create_token] insert;
    [tid] is the id the store assigns and [tok] the generated token string. *)
Definition create_token_data (now : Z) (tid : Z) (tok : string) (job : Z)
    (max_dl : Z) (expiry_hours : Z) : DownloadToken :=
  {| token_id := tid; token := tok; job_id := job; status := ACTIVE;
     download_count := 0; max_downloads := max_dl; created_time := now;
     expires_at := now + expiry_hours * us_per_hour;
     last_download_time := None; last_download_ip := None |}.

Definition table := list DownloadToken.

(** [get_token] + [fetchone]: the first row whose token matches. *)
Definition get_token (tok : string) (tbl : table) : option DownloadToken :=
  find (fun r => String.eqb (token r) tok) tbl.

(** [UPDATE download_tokens SET ... WHERE token_id = id]. *)
Definition update_where (id : Z) (f : DownloadToken -> DownloadToken)
    (tbl : table) : table :=
  map (fun r => if Z.eqb (token_id r) id then f r else r) tbl.

Definition bump (now : Z) (ip : option string) (r : DownloadToken) : DownloadToken :=
  {| token_id := token_id r; token := token r; job_id := job_id r;
     status := status r; download_count := download_count r + 1;
     max_downloads := max_downloads r; created_time := created_time r;
     expires_at := expires_at r; last_download_time := Some now;
     last_download_ip := ip |}.

Definition set_expired (r : DownloadToken) : DownloadToken :=
  {| token_id := token_id r; token := token r; job_id := job_id r;
     status := EXPIRED; download_count := download_count r;
     max_downloads := max_downloads r; created_time := created_time r;
     expires_at := expires_at r; last_download_time := last_download_time r;
     last_download_ip := last_download_ip r |}.

(** SQL [update_download] and [mark_expired]. *)
Definition update_download (id now : Z) (ip : option string) (tbl : table) : table :=
  update_where id (bump now ip) tbl.

Definition mark_expired (id : Z) (tbl : table) : table :=
  update_where id set_expired tbl.

Inductive HttpError := NotFound404 | Forbidden403.

(** [record_download]: the [HTTPException]s become [inl]; on success the
    returned [download_count] is [inr new_count]. *)
Definition record_download (now : Z) (ip : option string) (tok : string)
    (tbl : table) : (HttpError + Z) * table :=
  match get_token tok tbl with
  | None => (inl NotFound404, tbl)
  | Some dt =>
      if negb (is_valid now dt) then (inl Forbidden403, tbl)
      else
        let tbl1 := update_download (token_id dt) now ip tbl in
        let new_count := download_count dt + 1 in
        let tbl2 := if new_count >=? max_downloads dt
                    then mark_expired (token_id dt) tbl1 else tbl1 in
        (inr new_count, tbl2)
  end.

(** A sequence of [record_download] calls (time, client ip) on one token;
    each result is paired with the token's row after the call. *)
Fixpoint run_downloads (tok : string) (calls : list (Z * option string))
    (tbl : table) : list ((HttpError + Z) * option DownloadToken) :=
  match calls with
  | [] => []
  | (now, ip) :: rest =>
      let '(res, tbl') := record_download now ip tok tbl in
      (res, get_token tok tbl') :: run_downloads tok rest tbl'
  end.

(** SQL [expire_old_tokens]:
    [SET status='expired' WHERE status='active'
       AND (expires_at < NOW() OR download_count >= max_downloads)];
    the endpoint returns [cursor.rowcount]. *)
Definition sweep_match (now : Z) (r : DownloadToken) : bool :=
  TokenStatus_eqb (status r) ACTIVE
  && ((expires_at r <? now) || (download_count r >=? max_downloads r)).

Definition expire_old_tokens (now : Z) (tbl : table) : nat * table :=
  (List.length (filter (sweep_match now) tbl),
   map (fun r => if sweep_match now r then set_expired r else r) tbl).

(** The row of token [tok]: [get_token] finds [dt], and [dt] is the only
    row carrying its [token_id] (the primary key). *)
Definition tok_row (tok : string) (tbl : table) (dt : DownloadToken) : Prop :=
  get_token tok tbl = Some dt
  /\ (forall r, In r tbl -> token_id r = token_id dt -> r = dt).

End Tokens.

(** ** Job status (database.py [JobStatusEnum]) *)
Inductive JobStatus := SUBMITTED | PROCESSING | COMPLETED | FAILED | CANCELLED.

Definition JobStatus_eqb (a b : JobStatus) : bool :=
  match a, b with
  | SUBMITTED, SUBMITTED | PROCESSING, PROCESSING | COMPLETED, COMPLETED
  | FAILED, FAILED | CANCELLED, CANCELLED => true
  | _, _ => false
  end.

(** [os.path.basename]: the part after the last ['/']. *)
Fixpoint basename_acc (s acc : string) : string :=
  match s with
  | EmptyString => acc
  | String c rest =>
      if Ascii.eqb c "/"%char then basename_acc rest EmptyString
      else basename_acc rest (acc ++ String c EmptyString)
  end.

Definition basename (s : string) : string := basename_acc s EmptyString.

(** ** Submission gateway ([AsyncSDSFilePullHandler.get]) *)
Module Gateway.

(** A row of the job table
    [(email, sourceIP, jobid, dateCreated, jobSize, jobStatus, collection, downloadURL)]. *)
Record JobRow := mkJobRow {
  email : string;
  sourceIP : string;
  jobid : string;
  dateCreated : Z;
  jobSize : option Z;
  jobStatus : JobStatus;
  collection : string;
  downloadURL : option string
}.

(** The JSON body of the queue message and its [delivery_mode = 2]. *)
Record QueueMsg := mkQueueMsg {
  sda_path : string;
  msg_email : string;
  msg_job_id : string;
  persistent : bool
}.

(** The external effects of one request, in program order. *)
Inductive GwEvent :=
| Publish (m : QueueMsg)
| Insert (r : JobRow).

(** The HTTP responses: the deny-list warning, the duplicate notice, the
    acknowledgement and the [HTTPError(400)] raised on any exception. *)
Inductive Response := DenyListed | DuplicateRequest | Acknowledgement | Http400.

(** One request: arguments [p] and [uid], the resolved remote ip, the
    [uuid1] string and [datetime.now()]. *)
Record Request := mkRequest {
  req_p : string;
  req_uid : string;
  req_ip : string;
  req_uuid : string;
  req_now : Z
}.

(** [strftime('%Y-%m-%d %H:%M:%S')]: the stored creation time drops the
    microseconds. *)
Definition to_seconds (t : Z) : Z := t - t mod us_per_sec.

(** ** The duplicate query

    The handler builds the [SELECT] by pasting [uid] and [basename(p)]
    between double quotes into the SQL text.  Under MySQL's default
    [sql_mode] a double-quoted literal is a string in which a backslash
    starts an escape and a doubled quote stands for one quote. *)

Definition dquote : ascii := ascii_of_nat 34.
Definition backslash : ascii := ascii_of_nat 92.

(** The characters MySQL reads for the escape [\e]. *)
Definition unescape (e : ascii) : string :=
  if Ascii.eqb e "0"%char then String (ascii_of_nat 0) EmptyString
  else if Ascii.eqb e "b"%char then String (ascii_of_nat 8) EmptyString
  else if Ascii.eqb e "n"%char then String (ascii_of_nat 10) EmptyString
  else if Ascii.eqb e "r"%char then String (ascii_of_nat 13) EmptyString
  else if Ascii.eqb e "t"%char then String (ascii_of_nat 9) EmptyString
  else if Ascii.eqb e "Z"%char then String (ascii_of_nat 26) EmptyString
  else if Ascii.eqb e "%"%char || Ascii.eqb e "_"%char
  then String backslash (String e EmptyString)
  else String e EmptyString.

(** The value of the literal the code writes as a quote, [s], a quote:
    [None] when the characters of [s] close the literal before the quote
    the code appends (a lone quote) or carry it past that quote (a
    trailing backslash or a trailing quote). *)
Fixpoint dq_literal (s : string) : option string :=
  match s with
  | EmptyString => Some EmptyString
  | String c rest =>
      if Ascii.eqb c backslash then
        match rest with
        | EmptyString => None
        | String e rest' => option_map (append (unescape e)) (dq_literal rest')
        end
      else if Ascii.eqb c dquote then
        match rest with
        | String q rest' =>
            if Ascii.eqb q dquote then option_map (String dquote) (dq_literal rest')
            else None
        | EmptyString => None
        end
      else option_map (String c) (dq_literal rest)
  end.

(** The database as the handler meets it.  [db_str_eq] compares string
    columns under the table's collation (the schema is not part of the
    repository); [db_query_ok] says whether connecting, opening the cursor
    and running the [SELECT] succeed; [db_other_latest] is what the
    [SELECT] returns (the [dateCreated] of its first row, if any) when the
    text built is not the intended query, because a quote in [uid] or in
    the basename ended a literal early. *)
Record Db := mkDb {
  db_str_eq : string -> string -> bool;
  db_query_ok : bool;
  db_other_latest : option Z
}.

(** [WHERE email = u AND collection = c AND jobStatus != "failed"], [u] and
    [c] the values of the two literals. *)
Definition dedup_match (str_eq : string -> string -> bool) (u c : string)
    (r : JobRow) : bool :=
  str_eq (email r) u && str_eq (collection r) c
  && negb (JobStatus_eqb (jobStatus r) FAILED).

(** [ORDER BY dateCreated DESC LIMIT 1]: only the [dateCreated] of the first
    row is read, so ties among rows do not matter. *)
Fixpoint latest_created (rows : list JobRow) : option Z :=
  match rows with
  | [] => None
  | r :: rs =>
      match latest_created rs with
      | None => Some (dateCreated r)
      | Some d => Some (Z.max (dateCreated r) d)
      end
  end.

(** What the [SELECT] built from [uid] and [coll] returns. *)
Definition query_latest (db : Db) (uid coll : string) (tbl : list JobRow)
    : option Z :=
  match dq_literal uid, dq_literal coll with
  | Some u, Some c => latest_created (filter (dedup_match (db_str_eq db) u c) tbl)
  | _, _ => db_other_latest db
  end.

(** [cursor.rowcount > 0] and [td < timedelta(minutes = minimum_job_interval)]. *)
Definition is_duplicate (db : Db) (interval : Z) (now : Z) (uid coll : string)
    (tbl : list JobRow) : bool :=
  match query_latest db uid coll tbl with
  | None => false
  | Some last => now - last <? interval * us_per_min
  end.

(** The handler.  [publish_ok] and [insert_ok] say whether
    [basic_publish] and the insert return normally; an exception in the
    duplicate query, the publish or the insert ends the handler with
    [HTTPError(400)].  The insert passes its values as parameters, so the
    row stores [uid] and [basename(p)] as they are. *)
Definition get (db : Db) (black_list : list string) (interval : Z)
    (publish_ok insert_ok : bool) (rq : Request) (tbl : list JobRow)
    : Response * list GwEvent * list JobRow :=
  if existsb (String.eqb (req_uid rq)) black_list then (DenyListed, [], tbl)
  else if negb (db_query_ok db) then (Http400, [], tbl)
  else
    let coll := basename (req_p rq) in
    if is_duplicate db interval (req_now rq) (req_uid rq) coll tbl
    then (DuplicateRequest, [], tbl)
    else
      let msg := {| sda_path := req_p rq; msg_email := req_uid rq;
                    msg_job_id := req_uuid rq; persistent := true |} in
      let row := {| email := req_uid rq; sourceIP := req_ip rq;
                    jobid := req_uuid rq; dateCreated := to_seconds (req_now rq);
                    jobSize := None; jobStatus := SUBMITTED; collection := coll;
                    downloadURL := None |} in
      if negb publish_ok then (Http400, [], tbl)
      else if negb insert_ok then (Http400, [Publish msg], tbl)
      else (Acknowledgement, [Publish msg; Insert row], tbl ++ [row]).

(** No quote and no backslash: the literal reads back as written. *)
Definition sql_plain (s : string) : bool :=
  forallb (fun c => negb (Ascii.eqb c dquote) && negb (Ascii.eqb c backslash))
    (list_ascii_of_string s).

End Gateway.

(** ** Retrieval worker ([Worker.callback]) *)
Module Worker.

(** How the [hsi] subprocess ends: its exit code, or [TimeoutExpired]. *)
Inductive PullOutcome := Exit (code : Z) | Timeout.

Inductive MailKind := CompletionMail | ErrorMail | CancelMail.

(** The exceptions the callback can meet. *)
Inductive Exn :=
| MailError | DbError | PullError (o : PullOutcome) | SizeError | AckError
| ScanError.                          (* raised by hasEnoughSpace, outside any try *)

(** The columns of the job row the worker writes. *)
Record JobState := mkJobState {
  js_status : JobStatus;
  js_size : option Z;
  js_url : option string
}.

(** The external effects of the callback, in program order. *)
Inductive WEvent :=
| Reject (requeue : bool)            (* ch.basic_reject *)
| SetStatus (s : JobStatus)          (* UPDATE ... SET jobStatus *)
| SetCompleted (size : Z) (url : string)
                                     (* UPDATE ... SET jobStatus, jobSize, downloadURL *)
| Mail (k : MailKind)                (* Worker.sendMail attempted *)
| Pull                               (* Popen of the hsi command *)
| Kill                               (* os.kill(p.pid, SIGTERM) *)
| RemoveLocal                        (* os.remove(localfile) *)
| Ack.                               (* ch.basic_ack attempted *)

(** The job's row ([None] when no row has this [jobid]: the [UPDATE]s then
    change nothing) and the effects so far. *)
Record WState := mkWState { w_row : option JobState; w_trace : list WEvent }.

(** State and exception monad: Python statements that may raise. *)
Definition M (A : Type) := WState -> (A + Exn) * WState.

Definition ret {A} (a : A) : M A := fun s => (inl a, s).

Definition bind {A B} (m : M A) (k : A -> M B) : M B :=
  fun s => match m s with
           | (inl a, s') => k a s'
           | (inr e, s') => (inr e, s')
           end.

Definition raise {A} (e : Exn) : M A := fun s => (inr e, s).

Local Notation "x <- m ;; k" := (bind m (fun x => k))
  (at level 61, m at next level, right associativity).
Local Notation "m ;; k" := (bind m (fun _ => k)) (at level 61, right associativity).

(** [try: m except Exception: h]. *)
Definition try_except {A} (m : M A) (h : Exn -> M A) : M A :=
  fun s => match m s with
           | (inr e, s') => h e s'
           | r => r
           end.

(** [try: m finally: fin]; an exception of [fin] replaces the outcome. *)
Definition try_finally {A} (m : M A) (fin : M unit) : M A :=
  fun s => let '(r, s1) := m s in
           let '(r2, s2) := fin s1 in
           match r2 with
           | inr e => (inr e, s2)
           | inl _ => (r, s2)
           end.

Definition emit (e : WEvent) : M unit :=
  fun s => (inl tt, mkWState (w_row s) (w_trace s ++ [e])).

Definition modify_row (f : JobState -> JobState) : M unit :=
  fun s => (inl tt, mkWState (option_map f (w_row s)) (w_trace s)).

(** Constructor arguments of [Worker] the callback reads. *)
Record Config := mkConfig {
  staging_usage_threshold : Q;        (* getfloat(..., 'staging_usage_threshold_in_gb') *)
  http_download_server : string       (* trailing '/' already stripped *)
}.

(** What the outside world answers during one callback. *)
Record Env := mkEnv {
  env_in_cache : option bool;          (* isInCache result; None: it raised *)
  env_usage : Z;                       (* sum of st_size over the staging dir *)
  env_scan_ok : bool;                  (* the os.scandir / os.stat loop of
                                          hasEnoughSpace completes; it raises
                                          when an entry vanishes mid-scan *)
  env_pull : PullOutcome;
  env_file_size : option Z;            (* os.path.getsize; None: it raised *)
  env_db_ok : JobStatus -> bool;       (* the UPDATE writing this status commits *)
  env_mail_ok : MailKind -> bool;      (* smtplib send succeeds *)
  env_ack_ok : bool                    (* basic_ack returns normally *)
}.

(** [hasEnoughSpace]: [size / (1024*1024*1024) >= threshold] gives [False].
    Dividing by a power of two is exact in floating point, so [Q] is used. *)
Definition hasEnoughSpace (size : Z) (threshold : Q) : bool :=
  negb (Qle_bool threshold (inject_Z size / inject_Z (2 ^ 30))).

Section Callback.
Variable cfg : Config.
Variable env : Env.

(** [cacheHit = self.isInCache(basename)], an exception leaving it [False]. *)
Definition cacheHit : bool :=
  match env_in_cache env with Some b => b | None => false end.

Definition set_status (st : JobStatus) (j : JobState) : JobState :=
  mkJobState st (js_size j) (js_url j).

(** [updateJobStatus] with [SET jobStatus = st]. *)
Definition updateJobStatus (st : JobStatus) : M unit :=
  if env_db_ok env st then emit (SetStatus st);; modify_row (set_status st)
  else raise DbError.

(** [updateJobStatus] with [SET jobStatus = 'completed', jobSize, downloadURL]. *)
Definition updateCompleted (size : Z) (url : string) : M unit :=
  if env_db_ok env COMPLETED
  then emit (SetCompleted size url);;
       modify_row (fun _ => mkJobState COMPLETED (Some size) (Some url))
  else raise DbError.

(** [sendNotification], [sendErrorNotify], [sendCancelNotify]: all end in
    [Worker.sendMail], which lets SMTP errors propagate. *)
Definition sendMail (k : MailKind) : M unit :=
  emit (Mail k);; if env_mail_ok env k then ret tt else raise MailError.

(** [pullSda]: on a non-zero exit or a timeout, kill, remove, re-raise. *)
Definition pullSda : M unit :=
  emit Pull;;
  match env_pull env with
  | Exit code => if Z.eqb code 0 then ret tt
                 else emit Kill;; emit RemoveLocal;; raise (PullError (Exit code))
  | Timeout => emit Kill;; emit RemoveLocal;; raise (PullError Timeout)
  end.

Definition getsize : M Z :=
  match env_file_size env with Some n => ret n | None => raise SizeError end.

Definition basic_ack : M unit :=
  emit Ack;; if env_ack_ok env then ret tt else raise AckError.

Definition callback (sda_file_path : string) : M unit :=
  let base := basename sda_file_path in
  let hit := cacheHit in
  if negb (env_scan_ok env) then raise ScanError else
  if negb (hasEnoughSpace (env_usage env) (staging_usage_threshold cfg)) && negb hit
  then
    emit (Reject false);;
    updateJobStatus CANCELLED;;
    sendMail CancelMail
  else
    try_finally
      (try_except
         (updateJobStatus PROCESSING;;
          (if hit then ret tt else pullSda);;
          let download_link := (http_download_server cfg ++ "/" ++ base)%string in
          sz <- getsize;;
          updateCompleted (Z.shiftr sz 20) download_link;;
          sendMail CompletionMail)
         (fun _ => updateJobStatus FAILED;;
                   try_except (sendMail ErrorMail) (fun _ => ret tt)))
      (try_except basic_ack (fun _ => ret tt)).

End Callback.

(** One delivery of a message on a job whose row is [row0]. *)
Definition run_callback (cfg : Config) (env : Env) (path : string)
    (row0 : option JobState) : (unit + Exn) * WState :=
  callback cfg env path (mkWState row0 []).

(** The statuses written, in order. *)
Fixpoint written_statuses (tr : list WEvent) : list JobStatus :=
  match tr with
  | [] => []
  | SetStatus s :: tr' => s :: written_statuses tr'
  | SetCompleted _ _ :: tr' => COMPLETED :: written_statuses tr'
  | _ :: tr' => written_statuses tr'
  end.

(** Consecutive pairs of a status history starting at [s]. *)
Fixpoint transitions (s : JobStatus) (l : list JobStatus) : list (JobStatus * JobStatus) :=
  match l with
  | [] => []
  | x :: xs => (s, x) :: transitions x xs
  end.

(** The transitions of the spec's state machine. *)
Definition allowed_transition (p : JobStatus * JobStatus) : bool :=
  match p with
  | (SUBMITTED, PROCESSING) | (PROCESSING, COMPLETED) | (PROCESSING, FAILED)
  | (SUBMITTED, CANCELLED) => true
  | _ => false
  end.

End Worker.

(** ** Token endpoints ([src/app/worker.py], [src/app/core/download_tokens.py]) *)
Module TokenService.
Import Tokens.

(** The message [TokenManager.validate_token_params] returns. *)
Inductive TokenError :=
| TokenIsStatus (s : TokenStatus)     (* "Token is {status}" *)
| TokenTimeExpired                    (* "Token has expired (24 hours elapsed)" *)
| TokenMaxReached (m : Z)             (* "Token has reached maximum downloads (m)" *)
| TokenInvalid.                       (* "Token is invalid" *)

(** [TokenManager.validate_token_params]: [n1] is the [datetime.now()] read
    inside [is_valid], [n2] the one read by the [elif]. *)
Definition validate_token_params (n1 n2 : Z) (t : DownloadToken)
    : bool * option TokenError :=
  if negb (is_valid n1 t) then
    if negb (TokenStatus_eqb (status t) ACTIVE)
    then (false, Some (TokenIsStatus (status t)))
    else if n2 >=? expires_at t then (false, Some TokenTimeExpired)
    else if download_count t >=? max_downloads t
    then (false, Some (TokenMaxReached (max_downloads t)))
    else (false, Some TokenInvalid)
  else (true, None).

(** The [ValidateTokenResponse]s; [info] is the row as read, the object
    [to_dict] is called on. *)
Inductive ValidateResponse :=
| VNotFound
| VValid (info : DownloadToken)
| VInvalid (info : DownloadToken) (err : option TokenError).

(** [validate_download_token]; [n3] is the clock reading of [should_expire]. *)
Definition validate_download_token (n1 n2 n3 : Z) (tok : string) (tbl : table)
    : ValidateResponse * table :=
  match get_token tok tbl with
  | None => (VNotFound, tbl)
  | Some dt =>
      let '(ok, err) := validate_token_params n1 n2 dt in
      if negb ok then
        let tbl' := if should_expire n3 dt then mark_expired (token_id dt) tbl
                    else tbl in
        (VInvalid dt err, tbl')
      else (VValid dt, tbl)
  end.

(** The token-table writes of the endpoints, run one after another. *)
Inductive TokenOp :=
| OpRecord (now : Z) (ip : option string) (tok : string)
| OpValidate (n1 n2 n3 : Z) (tok : string)
| OpSweep (now : Z).

Definition apply_op (op : TokenOp) (tbl : table) : table :=
  match op with
  | OpRecord now ip tok => snd (record_download now ip tok tbl)
  | OpValidate n1 n2 n3 tok => snd (validate_download_token n1 n2 n3 tok tbl)
  | OpSweep now => snd (expire_old_tokens now tbl)
  end.

Fixpoint run_ops (ops : list TokenOp) (tbl : table) : table :=
  match ops with
  | [] => tbl
  | op :: ops' => run_ops ops' (apply_op op tbl)
  end.

End TokenService.

(** ** Jobs of the token API ([create_job], [generate_download_token]) *)
Module Jobs.
Import Tokens.

(** A row of [user_jobs]. *)
Record UserJob := mkUserJob {
  uj_job_id : Z;
  uj_user_email : string;
  uj_file_name : string;
  uj_job_status : JobStatus;
  uj_created_time : Z
}.

(** [create_job]: insert a [submitted] row; [new_id] is the auto-increment
    id the store assigns ([cursor.lastrowid]). *)
Definition create_job (new_id now : Z) (user_email file_name : string)
    (jobs : list UserJob) : Z * list UserJob :=
  (new_id, jobs ++ [mkUserJob new_id user_email file_name SUBMITTED now]).

Record GenerateTokenRequest := mkGenReq {
  g_job_id : Z;
  g_user_email : string;
  g_max_downloads : Z;
  g_expiry_hours : Z
}.

(** The [HTTPException]s of [generate_download_token]. *)
Inductive GenError := JobNotFound404 | NotOwner403 | NotCompleted400.

(** [generate_download_token]: [tid] is the id the store assigns to the new
    token row and [tok] the output of [generate_token]. *)
Definition generate_download_token (now tid : Z) (tok : string)
    (req : GenerateTokenRequest) (jobs : list UserJob) (tbl : table)
    : (GenError + DownloadToken) * table :=
  match find (fun j => Z.eqb (uj_job_id j) (g_job_id req)) jobs with
  | None => (inl JobNotFound404, tbl)
  | Some j =>
      if negb (String.eqb (uj_user_email j) (g_user_email req))
      then (inl NotOwner403, tbl)
      else if negb (JobStatus_eqb (uj_job_status j) COMPLETED)
      then (inl NotCompleted400, tbl)
      else
        let t := create_token_data now tid tok (g_job_id req)
                   (g_max_downloads req) (g_expiry_hours req) in
        (inr t, tbl ++ [t])
  end.

End Jobs.

(** ** Staging cache ([Worker.isInCache], [Worker.hasEnoughSpace]) *)
Module Cache.

Inductive CacheOutcome :=
| CacheHit           (* return True after os.utime *)
| CacheMiss          (* return False: the file is gone *)
| DeadFileRemoved.   (* unlink, then return False *)

Definition sleepInSecs : Z := 60.
Definition totalSizeInZeroWaitLimitInSecs : Z := 600.

(** The [while True] loop of [isInCache].  Each element of [obs] is what one
    iteration sees after its [time.sleep]: [None] when [is_file] is false,
    [Some size] otherwise.  The result is the outcome and the number of
    iterations run; [None] when [obs] ends before the loop does. *)
Fixpoint poll (fileSize totalSizeInZeroWaitSecs : Z) (obs : list (option Z))
    : option (CacheOutcome * nat) :=
  match obs with
  | [] => None
  | None :: _ => Some (CacheMiss, 1%nat)
  | Some curSize :: rest =>
      if curSize =? 0 then
        let zw := totalSizeInZeroWaitSecs + sleepInSecs in
        if zw <? totalSizeInZeroWaitLimitInSecs
        then option_map (fun '(o, n) => (o, S n)) (poll fileSize zw rest)
        else Some (DeadFileRemoved, 1%nat)
      else if negb (curSize =? fileSize)
      then option_map (fun '(o, n) => (o, S n)) (poll curSize totalSizeInZeroWaitSecs rest)
      else Some (CacheHit, 1%nat)
  end.

(** [isInCache]: [initial] is the first [is_file] / [stat] of the file. *)
Definition isInCache (initial : option Z) (obs : list (option Z))
    : option (CacheOutcome * nat) :=
  match initial with
  | None => Some (CacheMiss, 0%nat)
  | Some fileSize => poll fileSize 0 obs
  end.

(** Number of zero-size observations. *)
Fixpoint count_zero (obs : list (option Z)) : nat :=
  match obs with
  | [] => 0
  | Some 0 :: rest => S (count_zero rest)
  | _ :: rest => count_zero rest
  end.

(** The reference size after some observations: the last non-zero size
    seen, starting from [s]. *)
Fixpoint ref_size (s : Z) (obs : list (option Z)) : Z :=
  match obs with
  | [] => s
  | Some c :: rest => ref_size (if c =? 0 then s else c) rest
  | None :: rest => ref_size s rest
  end.

(** The size loop of [hasEnoughSpace]: [size += os.stat(ele).st_size] over
    the entries of [os.scandir]. *)
Definition dir_usage (entries : list Z) : Z := fold_left Z.add entries 0.

Definition hasEnoughSpaceDir (entries : list Z) (threshold : Q) : bool :=
  Worker.hasEnoughSpace (dir_usage entries) threshold.

End Cache.

(** * Download token service *)
Section TokenFacts.
Import Tokens.

Lemma TokenStatus_eqb_spec a b : TokenStatus_eqb a b = true <-> a = b.
Proof. destruct a, b; simpl; split; congruence. Qed.

Lemma is_valid_true_iff now t :
  is_valid now t = true <->
  status t = ACTIVE /\ now < expires_at t /\ download_count t < max_downloads t.
Proof.
  unfold is_valid.
  destruct (TokenStatus_eqb (status t) ACTIVE) eqn:Hs; simpl.
  - apply TokenStatus_eqb_spec in Hs.
    destruct (now >=? expires_at t) eqn:He.
    + apply Z.geb_le in He. split; [discriminate | lia].
    + rewrite Z.geb_leb, Z.leb_gt in He.
      destruct (download_count t >=? max_downloads t) eqn:Hc.
      * apply Z.geb_le in Hc. split; [discriminate | lia].
      * rewrite Z.geb_leb, Z.leb_gt in Hc. split; auto.
  - split; [discriminate |].
    intros [Ha _]. rewrite Ha in Hs. discriminate.
Qed.

(** C2: [is_valid] is exactly [status = active /\ now < expires_at /\
    download_count < max_downloads]; in particular a freshly created token
    (download_count 0) is invalid at or after [created_time + expiry_hours]. *)
Theorem is_valid_iff (now : Z) (t : DownloadToken) :
  (is_valid now t = true <->
     status t = ACTIVE /\ now < expires_at t /\ download_count t < max_downloads t)
  /\ (forall c tid tok job max_dl hours,
        c + hours * us_per_hour <= now ->
        is_valid now (create_token_data c tid tok job max_dl hours) = false).
Proof.
  split.
  - unfold is_valid.
    destruct (TokenStatus_eqb (status t) ACTIVE) eqn:Hs; simpl.
    + apply TokenStatus_eqb_spec in Hs.
      destruct (now >=? expires_at t) eqn:He.
      * apply Z.geb_le in He. split; [discriminate | lia].
      * rewrite Z.geb_leb, Z.leb_gt in He.
        destruct (download_count t >=? max_downloads t) eqn:Hc.
        -- apply Z.geb_le in Hc. split; [discriminate | lia].
        -- rewrite Z.geb_leb, Z.leb_gt in Hc. split; auto.
    + split; [discriminate |].
      intros [Ha _]. rewrite Ha in Hs. discriminate.
  - intros c tid tok job max_dl hours Hle.
    unfold is_valid, create_token_data; simpl.
    replace (now >=? c + hours * us_per_hour) with true; [reflexivity |].
    symmetry. apply Z.geb_le. lia.
Qed.

Lemma is_valid_iff_witness :
  (0 + 24 * us_per_hour <= 24 * us_per_hour)
  /\ is_valid (24 * us_per_hour) (create_token_data 0 1 "t"%string 7 3 24) = false.
Proof.
  split; [lia |].
  apply (proj2 (is_valid_iff (24 * us_per_hour)
                  (create_token_data 0 1 "t"%string 7 3 24)) 0 1 "t"%string 7 3 24).
  lia.
Defined.

Lemma find_map_same {A} (p : A -> bool) (g : A -> A) (l : list A) :
  (forall x, p (g x) = p x) -> find p (map g l) = option_map g (find p l).
Proof.
  intros Hp. induction l as [|x l IH]; simpl; [reflexivity|].
  rewrite Hp. destruct (p x); [reflexivity | exact IH].
Qed.

(** An [UPDATE ... WHERE token_id = id] of the token's own row keeps it the
    token's row. *)
Lemma tok_row_update_where tok tbl dt f :
  (forall r, token (f r) = token r /\ token_id (f r) = token_id r) ->
  tok_row tok tbl dt ->
  tok_row tok (update_where (token_id dt) f tbl) (f dt).
Proof.
  intros Hf [Hget Huniq]. split.
  - unfold get_token, update_where in *.
    rewrite find_map_same.
    + rewrite Hget. simpl. rewrite Z.eqb_refl. reflexivity.
    + intros x. destruct (token_id x =? token_id dt); [|reflexivity].
      rewrite (proj1 (Hf x)). reflexivity.
  - intros r Hin Hid. unfold update_where in Hin.
    apply in_map_iff in Hin as [r0 [Heq Hin0]].
    rewrite (proj2 (Hf dt)) in Hid.
    destruct (token_id r0 =? token_id dt) eqn:E.
    + apply Z.eqb_eq in E. rewrite (Huniq r0 Hin0 E) in Heq. congruence.
    + subst r. apply Z.eqb_neq in E. contradiction.
Qed.

Lemma bump_keys now ip r :
  token (bump now ip r) = token r /\ token_id (bump now ip r) = token_id r.
Proof. split; reflexivity. Qed.

Lemma set_expired_keys r :
  token (set_expired r) = token r /\ token_id (set_expired r) = token_id r.
Proof. split; reflexivity. Qed.

(** A valid token: the download is recorded and the row is bumped, then
    expired when the new count reaches the limit. *)
Lemma record_download_ok now ip tok tbl dt :
  tok_row tok tbl dt -> is_valid now dt = true ->
  exists tbl',
    record_download now ip tok tbl = (inr (download_count dt + 1), tbl')
    /\ tok_row tok tbl'
         (if download_count dt + 1 >=? max_downloads dt
          then set_expired (bump now ip dt) else bump now ip dt).
Proof.
  intros Hrow Hv. unfold record_download.
  rewrite (proj1 Hrow), Hv. simpl.
  pose proof (tok_row_update_where tok tbl dt (bump now ip)
                (bump_keys now ip) Hrow) as H1.
  destruct (download_count dt + 1 >=? max_downloads dt).
  - eexists. split; [reflexivity|].
    unfold mark_expired, update_download.
    exact (tok_row_update_where tok _ (bump now ip dt) set_expired
             set_expired_keys H1).
  - eexists. split; [reflexivity | exact H1].
Qed.

Lemma record_download_forbidden now ip tok tbl dt :
  get_token tok tbl = Some dt -> is_valid now dt = false ->
  record_download now ip tok tbl = (inl Forbidden403, tbl).
Proof. intros Hg Hv. unfold record_download. rewrite Hg, Hv. reflexivity. Qed.

Lemma run_downloads_expired tok tbl dt rest :
  get_token tok tbl = Some dt -> status dt = EXPIRED ->
  run_downloads tok rest tbl = map (fun _ => (inl Forbidden403, Some dt)) rest.
Proof.
  intros Hg Hs. induction rest as [|[now ip] rest IH]; simpl; [reflexivity|].
  rewrite (record_download_forbidden now ip tok tbl dt Hg).
  - rewrite Hg, IH. reflexivity.
  - unfold is_valid. rewrite Hs. reflexivity.
Qed.

(** C6: a fresh token with [max_downloads = 3], used before [expires_at],
    passes exactly three [record_download] calls; each re-validates, adds
    one to [download_count] and records the time and ip, the third also
    sets [status = expired]; every later call fails with 403. *)
Theorem record_download_three_then_forbidden tok tbl dt
    t1 t2 t3 ip1 ip2 ip3 rest :
  tok_row tok tbl dt ->
  status dt = ACTIVE -> download_count dt = 0 -> max_downloads dt = 3 ->
  t1 < expires_at dt -> t2 < expires_at dt -> t3 < expires_at dt ->
  run_downloads tok ((t1, ip1) :: (t2, ip2) :: (t3, ip3) :: rest) tbl =
    [(inr 1, Some (bump t1 ip1 dt));
     (inr 2, Some (bump t2 ip2 (bump t1 ip1 dt)));
     (inr 3, Some (set_expired (bump t3 ip3 (bump t2 ip2 (bump t1 ip1 dt)))))]
    ++ map (fun _ => (inl Forbidden403,
                      Some (set_expired (bump t3 ip3 (bump t2 ip2 (bump t1 ip1 dt))))))
           rest.
Proof.
  intros Hrow Hs Hc Hm H1 H2 H3.
  assert (V : forall now d, status d = ACTIVE -> now < expires_at d ->
                download_count d < max_downloads d -> is_valid now d = true)
    by (intros now d Ha Hn Hd; apply (proj2 (is_valid_true_iff now d)); auto).
  destruct (record_download_ok t1 ip1 tok tbl dt Hrow) as [tbl1 [E1 R1]];
    [apply V; [assumption | lia | lia] |].
  simpl in R1, E1.
  repeat (rewrite Hc in R1 || rewrite Hm in R1 || rewrite Hc in E1).
  simpl in R1, E1.
  destruct (record_download_ok t2 ip2 tok tbl1 _ R1) as [tbl2 [E2 R2]];
    [apply V; simpl; [assumption | lia | lia] |].
  simpl in R2, E2.
  repeat (rewrite Hc in R2 || rewrite Hm in R2 || rewrite Hc in E2).
  simpl in R2, E2.
  destruct (record_download_ok t3 ip3 tok tbl2 _ R2) as [tbl3 [E3 R3]];
    [apply V; simpl; [assumption | lia | lia] |].
  simpl in R3, E3.
  repeat (rewrite Hc in R3 || rewrite Hm in R3 || rewrite Hc in E3).
  simpl in R3, E3.
  simpl. rewrite E1, (proj1 R1), E2, (proj1 R2), E3, (proj1 R3).
  do 3 f_equal.
  apply (run_downloads_expired tok tbl3); [exact (proj1 R3) | reflexivity].
Qed.

Lemma record_download_three_then_forbidden_witness :
  run_downloads "abc"%string
    [(10, Some "1.2.3.4"%string); (20, None); (30, None); (40, None)]
    [create_token_data 0 5 "abc"%string 7 3 24]
  = [(inr 1, Some (bump 10 (Some "1.2.3.4"%string)
                    (create_token_data 0 5 "abc"%string 7 3 24)));
     (inr 2, Some (bump 20 None (bump 10 (Some "1.2.3.4"%string)
                    (create_token_data 0 5 "abc"%string 7 3 24))));
     (inr 3, Some (set_expired (bump 30 None (bump 20 None
                    (bump 10 (Some "1.2.3.4"%string)
                       (create_token_data 0 5 "abc"%string 7 3 24))))))]
    ++ map (fun _ => (inl Forbidden403,
                      Some (set_expired (bump 30 None (bump 20 None
                        (bump 10 (Some "1.2.3.4"%string)
                           (create_token_data 0 5 "abc"%string 7 3 24)))))))
           [(40, @None string)].
Proof.
  apply record_download_three_then_forbidden;
    try reflexivity; try (vm_compute; reflexivity).
  split; [reflexivity |].
  intros r [Hr | []] _. symmetry. exact Hr.
Defined.

Lemma length_filter_none {A} (f : A -> bool) (l : list A) :
  (forall x, In x l -> f x = false) -> List.length (filter f l) = 0%nat.
Proof.
  induction l as [|x l IH]; intros H; simpl; [reflexivity|].
  rewrite (H x (or_introl eq_refl)). apply IH. intros y Hy. apply H. now right.
Qed.

(** C9 (as the code has it): a second [expire_old_tokens] flips no token when
    no token's [expires_at] lies in [\[now1, now2)], where [now1] and [now2]
    are the clock readings of the two runs; in particular when both runs
    read the same [NOW()]. *)
Theorem expire_old_tokens_second_run_zero now1 now2 tbl :
  (forall r, In r tbl -> ~ (now1 <= expires_at r < now2)) ->
  fst (expire_old_tokens now2 (snd (expire_old_tokens now1 tbl))) = 0%nat.
Proof.
  intros Hgap. unfold expire_old_tokens; simpl.
  apply length_filter_none. intros x Hx.
  apply in_map_iff in Hx as [r [<- Hr]].
  destruct (sweep_match now1 r) eqn:E1; [reflexivity |].
  unfold sweep_match in *.
  destruct (TokenStatus_eqb (status r) ACTIVE); simpl in *; [| reflexivity].
  apply orb_false_iff in E1 as [Ea Ec]. rewrite Ec, orb_false_r.
  apply Z.ltb_ge in Ea. apply Z.ltb_ge.
  specialize (Hgap r Hr). lia.
Qed.

Lemma expire_old_tokens_second_run_zero_witness :
  fst (expire_old_tokens 100 (snd (expire_old_tokens 100
    [create_token_data 0 5 "abc"%string 7 3 24;
     set_expired (create_token_data 0 6 "def"%string 7 3 0)]))) = 0%nat.
Proof.
  apply expire_old_tokens_second_run_zero.
  intros r Hr. simpl in Hr.
  destruct Hr as [<- | [<- | []]]; simpl; unfold us_per_hour, us_per_sec; lia.
Defined.

(** C9, as the claim states it (any two clock readings with no regression),
    does not hold: a token whose [expires_at] falls between the two runs is
    flipped by the second. *)
Lemma expire_old_tokens_clock_advance_counterexample :
  ~ (forall now1 now2 tbl, now1 <= now2 ->
       fst (expire_old_tokens now2 (snd (expire_old_tokens now1 tbl))) = 0%nat).
Proof.
  intros H.
  specialize (H 10 (24 * us_per_hour + 10)
                [create_token_data 0 5 "abc"%string 7 3 24]).
  assert (E : 10 <= 24 * us_per_hour + 10) by (unfold us_per_hour, us_per_sec; lia).
  specialize (H E). vm_compute in H. discriminate H.
Qed.

End TokenFacts.

(** * Submission gateway *)
Section GatewayFacts.
Import Gateway.

Lemma not_black_listed uid bl :
  ~ In uid bl -> existsb (String.eqb uid) bl = false.
Proof.
  intros H. apply not_true_is_false. intros E.
  apply existsb_exists in E as [x [Hx Ex]].
  apply String.eqb_eq in Ex. subst x. contradiction.
Qed.

(** The row [ORDER BY dateCreated DESC LIMIT 1] reads carries the largest
    [dateCreated]. *)
Lemma latest_created_some rows d :
  latest_created rows = Some d ->
  exists r, In r rows /\ dateCreated r = d
            /\ forall r', In r' rows -> dateCreated r' <= d.
Proof.
  revert d. induction rows as [|r rs IH]; intros d H; simpl in H; [discriminate|].
  destruct (latest_created rs) as [d'|] eqn:E.
  - injection H as <-. destruct (IH d' eq_refl) as [r0 [Hin [Hd Hmax]]].
    destruct (Z.le_ge_cases (dateCreated r) d').
    + exists r0. rewrite Z.max_r by lia. split; [now right|]. split; [exact Hd|].
      intros r' [<- | Hr']; [lia | apply Hmax; exact Hr'].
    + exists r. rewrite Z.max_l by lia. split; [now left|]. split; [reflexivity|].
      intros r' [<- | Hr']; [lia | specialize (Hmax r' Hr'); lia].
  - injection H as <-. exists r. split; [now left|]. split; [reflexivity|].
    intros r' [<- | Hr']; [lia|].
    destruct rs as [|x xs]; [contradiction|]. simpl in E.
    destruct (latest_created xs); discriminate.
Qed.

Lemma latest_created_none rows : latest_created rows = None -> rows = [].
Proof.
  destruct rows as [|r rs]; simpl; [reflexivity|].
  destruct (latest_created rs); discriminate.
Qed.

Lemma dq_literal_plain s : sql_plain s = true -> dq_literal s = Some s.
Proof.
  induction s as [|c rest IH]; simpl; [reflexivity|].
  unfold sql_plain. simpl. intros H.
  apply andb_true_iff in H as [Hc Hrest].
  apply andb_true_iff in Hc as [Hq Hb]. apply negb_true_iff in Hq, Hb.
  rewrite Hb, Hq. rewrite (IH Hrest). reflexivity.
Qed.

(** C7 fails in the code: the duplicate query pastes the basename into a
    double-quoted SQL literal, where MySQL reads the two characters
    backslash, [n] as a newline.  A basename [a\nb.zip] is stored as
    written (the insert uses parameters) but looked up as [a], newline,
    [b.zip]: a second request one minute after an accepted one, for the
    same file and requester, finds the first job as the latest non-failed
    job of the pair inside the window, and is accepted all the same. *)
Theorem gateway_dedup_escape_divergence :
  let db := mkDb String.eqb true None in
  let rq1 := mkRequest "/archive/a\nb.zip" "u@x.com" "10.0.0.1" "j1" (10 * us_per_min) in
  let rq2 := mkRequest "/archive/a\nb.zip" "u@x.com" "10.0.0.1" "j2" (11 * us_per_min) in
  let tbl := snd (get db [] 360 true true rq1 []) in
  fst (fst (get db [] 360 true true rq1 [])) = Acknowledgement
  /\ (exists r, In r tbl
        /\ email r = req_uid rq2 /\ collection r = basename (req_p rq2)
        /\ jobStatus r <> FAILED
        /\ (forall r', In r' tbl -> email r' = req_uid rq2 ->
              collection r' = basename (req_p rq2) -> jobStatus r' <> FAILED ->
              dateCreated r' <= dateCreated r)
        /\ req_now rq2 - dateCreated r < 360 * us_per_min)
  /\ fst (fst (get db [] 360 true true rq2 tbl)) = Acknowledgement.
Proof.
  intros db rq1 rq2 tbl.
  split; [vm_compute; reflexivity|]. split; [|vm_compute; reflexivity].
  exists (mkJobRow "u@x.com" "10.0.0.1" "j1" (to_seconds (10 * us_per_min)) None
            SUBMITTED "a\nb.zip" None).
  split; [vm_compute; left; reflexivity|].
  split; [reflexivity|]. split; [vm_compute; reflexivity|].
  split; [discriminate|]. split.
  - intros r' Hr'. vm_compute in Hr'. destruct Hr' as [<- | []].
    intros _ _ _. vm_compute. intros H. discriminate H.
  - vm_compute. reflexivity.
Qed.

(** For a requester not on the deny list whose email and basename hold no
    quote and no backslash, with the duplicate query succeeding, a request
    is rejected as a duplicate exactly when the latest non-failed job of
    the same (email, collection basename), compared under the table's
    collation, was created less than [interval] minutes before now; failed
    jobs never change the answer. *)
Theorem gateway_dedup_iff db bl interval pub ins rq tbl :
  ~ In (req_uid rq) bl -> db_query_ok db = true ->
  sql_plain (req_uid rq) = true -> sql_plain (basename (req_p rq)) = true ->
  (fst (fst (get db bl interval pub ins rq tbl)) = DuplicateRequest <->
     exists r, In r tbl
       /\ db_str_eq db (email r) (req_uid rq) = true
       /\ db_str_eq db (collection r) (basename (req_p rq)) = true
       /\ jobStatus r <> FAILED
       /\ (forall r', In r' tbl -> db_str_eq db (email r') (req_uid rq) = true ->
             db_str_eq db (collection r') (basename (req_p rq)) = true ->
             jobStatus r' <> FAILED ->
             dateCreated r' <= dateCreated r)
       /\ req_now rq - dateCreated r < interval * us_per_min)
  /\ (forall f, jobStatus f = FAILED ->
        fst (get db bl interval pub ins rq (f :: tbl)) = fst (get db bl interval pub ins rq tbl)).
Proof.
  intros Hbl Hok Hpu Hpc. pose proof (not_black_listed _ _ Hbl) as Hb.
  set (m := dedup_match (db_str_eq db) (req_uid rq) (basename (req_p rq))).
  assert (Hm : forall r, m r = true <->
            db_str_eq db (email r) (req_uid rq) = true
            /\ db_str_eq db (collection r) (basename (req_p rq)) = true
            /\ jobStatus r <> FAILED).
  { intros r. unfold m, dedup_match.
    rewrite !andb_true_iff, negb_true_iff.
    destruct (jobStatus r); simpl; intuition congruence. }
  assert (Hq : forall t, query_latest db (req_uid rq) (basename (req_p rq)) t
                         = latest_created (filter m t))
    by (intros t; unfold query_latest; rewrite !dq_literal_plain by assumption; reflexivity).
  split.
  - unfold get. rewrite Hb, Hok. simpl. unfold is_duplicate. rewrite Hq.
    destruct (latest_created (filter m tbl)) as [last|] eqn:E.
    + destruct (latest_created_some _ _ E) as [r [Hin [Hd Hmax]]].
      apply filter_In in Hin as [Hin Hr]. apply Hm in Hr.
      split.
      * intros Hdup. exists r. repeat split; try tauto.
        -- intros r' Hr' He Hc Hs. rewrite Hd. apply Hmax.
           apply filter_In. split; [exact Hr'|]. apply Hm. tauto.
        -- destruct (req_now rq - last <? interval * us_per_min) eqn:L;
             simpl in Hdup; [|destruct pub, ins; discriminate].
           apply Z.ltb_lt in L. lia.
      * intros [r' [Hin' [He' [Hc' [Hs' [Hmax' Hlt]]]]]].
        assert (dateCreated r' = last).
        { assert (dateCreated r' <= last).
          { apply Hmax. apply filter_In. split; [exact Hin'|]. apply Hm. tauto. }
          assert (last <= dateCreated r') by (rewrite <- Hd; apply Hmax'; tauto).
          lia. }
        replace (req_now rq - last <? interval * us_per_min) with true
          by (symmetry; apply Z.ltb_lt; lia).
        reflexivity.
    + apply latest_created_none in E. split.
      * simpl. destruct pub, ins; discriminate.
      * intros [r [Hin [He [Hc [Hs _]]]]].
        assert (In r (filter m tbl))
          by (apply filter_In; split; [exact Hin | apply Hm; tauto]).
        rewrite E in H. contradiction.
  - intros f Hf. unfold get. rewrite Hb, Hok. simpl. unfold is_duplicate. rewrite !Hq. simpl.
    replace (m f) with false
      by (symmetry; unfold m, dedup_match; rewrite Hf; simpl; apply andb_false_r).
    destruct (match latest_created (filter m tbl) with
              | Some last => req_now rq - last <? interval * us_per_min
              | None => false end); [reflexivity|].
    destruct pub, ins; reflexivity.
Qed.

Lemma gateway_dedup_iff_witness :
  fst (fst (get (mkDb String.eqb true None) [] 360 true true
              (mkRequest "/archive/a.zip" "u@x.com" "10.0.0.1" "j2" (100 * us_per_min))
              [mkJobRow "u@x.com" "10.0.0.1" "j1" 0 None COMPLETED "a.zip" None]))
  = DuplicateRequest.
Proof.
  apply (proj1 (gateway_dedup_iff (mkDb String.eqb true None) [] 360 true true
           (mkRequest "/archive/a.zip" "u@x.com" "10.0.0.1" "j2" (100 * us_per_min))
           [mkJobRow "u@x.com" "10.0.0.1" "j1" 0 None COMPLETED "a.zip" None]
           (fun H => H) eq_refl eq_refl eq_refl)).
  exists (mkJobRow "u@x.com" "10.0.0.1" "j1" 0 None COMPLETED "a.zip" None).
  split; [now left|]. split; [reflexivity|]. split; [reflexivity|].
  split; [discriminate|]. split.
  - intros r' [<- | []] _ _ _. lia.
  - simpl. unfold us_per_min, us_per_sec. lia.
Defined.

(** C1 (as the code has it): an accepted request first publishes the
    persistent message [{sda_path, email, job_id}] and then inserts the job
    row with status [submitted], no size and no url; when the publish
    raises, nothing is inserted. *)
Theorem gateway_publish_then_insert db bl interval pub ins rq tbl resp evs tbl' :
  get db bl interval pub ins rq tbl = (resp, evs, tbl') ->
  (resp = Acknowledgement ->
     exists r, evs = [Publish (mkQueueMsg (req_p rq) (req_uid rq) (req_uuid rq) true);
                      Insert r]
       /\ tbl' = tbl ++ [r]
       /\ jobid r = req_uuid rq /\ email r = req_uid rq
       /\ collection r = basename (req_p rq)
       /\ jobStatus r = SUBMITTED /\ jobSize r = None /\ downloadURL r = None)
  /\ (pub = false -> evs = [] /\ tbl' = tbl).
Proof.
  unfold get. intros H.
  destruct (existsb (String.eqb (req_uid rq)) bl).
  { injection H as <- <- <-. split; [discriminate | auto]. }
  destruct (db_query_ok db); simpl in H.
  2:{ injection H as <- <- <-. split; [discriminate | auto]. }
  destruct (is_duplicate db interval (req_now rq) (req_uid rq) (basename (req_p rq)) tbl).
  { injection H as <- <- <-. split; [discriminate | auto]. }
  destruct pub; simpl in H.
  - destruct ins; simpl in H; injection H as <- <- <-.
    + split; [|discriminate]. intros _. eexists. repeat split; reflexivity.
    + split; discriminate.
  - injection H as <- <- <-. split; [discriminate | auto].
Qed.

Lemma gateway_publish_then_insert_witness :
  exists r,
    fst (get (mkDb String.eqb true None) [] 360 true true
           (mkRequest "/archive/a.zip" "u@x.com" "10.0.0.1" "j2" 0) [])
    = (Acknowledgement,
       [Publish (mkQueueMsg "/archive/a.zip" "u@x.com" "j2" true); Insert r])
    /\ jobStatus r = SUBMITTED.
Proof.
  destruct (proj1 (gateway_publish_then_insert (mkDb String.eqb true None) [] 360 true true
             (mkRequest "/archive/a.zip" "u@x.com" "10.0.0.1" "j2" 0) []
             _ _ _ eq_refl) eq_refl) as [r [Hev [_ [_ [_ [_ [Hs _]]]]]]].
  exists r. split; [| exact Hs].
  cbn in Hev |- *. rewrite Hev. reflexivity.
Defined.

(** C1, as the claim states it (insert before publish), does not hold: the
    accepted request below publishes before it inserts. *)
Lemma gateway_insert_before_publish_counterexample :
  ~ (forall db bl interval rq tbl evs tbl',
       get db bl interval true true rq tbl = (Acknowledgement, evs, tbl') ->
       exists pre mid post r m,
         evs = pre ++ Insert r :: mid ++ Publish m :: post).
Proof.
  intros H.
  destruct (H (mkDb String.eqb true None) [] 360 (mkRequest "/archive/a.zip" "u@x.com" "10.0.0.1" "j2" 0) []
              _ _ eq_refl) as [pre [mid [post [r [m E]]]]].
  assert (L := f_equal (@List.length GwEvent) E).
  rewrite length_app in L. simpl in L. rewrite length_app in L. simpl in L.
  destruct pre as [|x pre]; [| simpl in L; lia].
  destruct mid as [|y mid]; [| simpl in L; lia].
  simpl in E. discriminate E.
Qed.

End GatewayFacts.

(** * Retrieval worker *)
Section WorkerFacts.
Import Worker.

(** Split on every answer of the outside world the callback reads. *)
Ltac env_cases :=
  repeat (cbn -[hasEnoughSpace Z.shiftr basename];
    match goal with
    | |- context [env_db_ok ?e ?s] => destruct (env_db_ok e s)
    | |- context [env_mail_ok ?e ?k] => destruct (env_mail_ok e k)
    | |- context [env_ack_ok ?e] => destruct (env_ack_ok e)
    | |- context [env_pull ?e] => destruct (env_pull e) as [?c|]
    | |- context [Z.eqb ?c 0] => destruct (Z.eqb c 0)
    | |- context [env_file_size ?e] => destruct (env_file_size e)
    end).




(** C8: when the retrieval tool runs (cache miss, the staging scan
    completing with enough space, the [processing] update committed) and exits non-zero or times out, the
    callback kills it, removes the partial file, writes [failed], attempts
    the failure mail and acknowledges the message, returning normally. *)
Theorem callback_pull_failure cfg env path row0 :
  env_in_cache env <> Some true -> env_scan_ok env = true ->
  hasEnoughSpace (env_usage env) (staging_usage_threshold cfg) = true ->
  env_db_ok env PROCESSING = true -> env_db_ok env FAILED = true ->
  (env_pull env = Timeout \/ exists c, env_pull env = Exit c /\ c <> 0) ->
  run_callback cfg env path row0 =
    (inl tt,
     mkWState (option_map (set_status FAILED) row0)
       [SetStatus PROCESSING; Pull; Kill; RemoveLocal; SetStatus FAILED;
        Mail ErrorMail; Ack]).
Proof.
  intros Hmiss Hscan Hspace Hp Hf Hpull.
  unfold run_callback, callback, cacheHit. rewrite Hscan, Hspace.
  replace (match env_in_cache env with Some b => b | None => false end) with false
    by (destruct (env_in_cache env) as [[|]|]; congruence).
  cbn -[basename]. unfold updateJobStatus. rewrite Hp. cbn -[basename].
  unfold pullSda.
  destruct Hpull as [Ht | [c [Hc Hnz]]].
  - rewrite Ht. cbn -[basename]. rewrite Hf.
    unfold sendMail, basic_ack.
    destruct row0; destruct (env_mail_ok env ErrorMail), (env_ack_ok env); reflexivity.
  - rewrite Hc. apply Z.eqb_neq in Hnz. cbn -[basename]. rewrite Hnz. cbn. rewrite Hf.
    unfold sendMail, basic_ack.
    destruct row0; destruct (env_mail_ok env ErrorMail), (env_ack_ok env); reflexivity.
Qed.

Lemma callback_pull_failure_witness :
  run_callback (mkConfig (950 # 1) "http://dl")
    (mkEnv (Some false) 0 true Timeout None (fun _ => true) (fun _ => false) true)
    "/archive/a.zip" (Some (mkJobState SUBMITTED None None)) =
    (inl tt,
     mkWState (Some (mkJobState FAILED None None))
       [SetStatus PROCESSING; Pull; Kill; RemoveLocal; SetStatus FAILED;
        Mail ErrorMail; Ack]).
Proof.
  apply callback_pull_failure.
  - discriminate.
  - reflexivity.
  - vm_compute. reflexivity.
  - reflexivity.
  - reflexivity.
  - left. reflexivity.
Defined.

Lemma shiftr_20_small s : 0 <= s < 2 ^ 20 -> Z.shiftr s 20 = 0.
Proof.
  intros H. rewrite Z.shiftr_div_pow2 by lia. apply Z.div_small. exact H.
Qed.

(** C10: with a staged file of fewer than [2^20] bytes, the only size the
    callback writes is [0], so a job row left [completed] has [jobSize = 0]. *)
Theorem callback_small_file_size_zero cfg env path s :
  env_file_size env = Some s -> 0 <= s < 2 ^ 20 ->
  (forall sz u, In (SetCompleted sz u)
     (w_trace (snd (run_callback cfg env path (Some (mkJobState SUBMITTED None None))))) ->
     sz = 0)
  /\ (forall r, w_row (snd (run_callback cfg env path
                  (Some (mkJobState SUBMITTED None None)))) = Some r ->
      js_status r = COMPLETED -> js_size r = Some 0).
Proof.
  intros Hs Hsmall.
  unfold run_callback, callback, cacheHit, getsize.
  rewrite Hs.
  destruct (env_scan_ok env),
           (negb (hasEnoughSpace (env_usage env) (staging_usage_threshold cfg))),
           (env_in_cache env) as [[|]|];
  unfold updateJobStatus, updateCompleted, sendMail, pullSda, basic_ack;
  env_cases; split; simpl;
  try (intros sz u H; rewrite ?(shiftr_20_small s Hsmall) in H; intuition congruence);
  try (intros r H; injection H as <-; simpl;
       rewrite ?(shiftr_20_small s Hsmall); congruence).
Qed.

Lemma callback_small_file_size_zero_witness :
  w_row (snd (run_callback (mkConfig (950 # 1) "http://dl")
    (mkEnv (Some true) 0 true (Exit 0) (Some 5000) (fun _ => true) (fun _ => true) true)
    "/archive/a.zip" (Some (mkJobState SUBMITTED None None))))
  = Some (mkJobState COMPLETED (Some 0) (Some "http://dl/a.zip"%string))
  /\ js_size (mkJobState COMPLETED (Some 0) (Some "http://dl/a.zip"%string)) = Some 0.
Proof.
  split; [vm_compute; reflexivity |].
  apply (proj2 (callback_small_file_size_zero (mkConfig (950 # 1) "http://dl")
    (mkEnv (Some true) 0 true (Exit 0) (Some 5000) (fun _ => true) (fun _ => true) true)
    "/archive/a.zip" 5000 eq_refl ltac:(lia))).
  - vm_compute. reflexivity.
  - reflexivity.
Defined.

(** The run C3 and C4 are about: cache hit, everything succeeds except the
    completion mail. *)
Lemma completion_mail_failure_run :
  run_callback (mkConfig (950 # 1) "http://dl")
    (mkEnv (Some true) 0 true (Exit 0) (Some (5 * 2 ^ 20)) (fun _ => true)
       (fun k => match k with CompletionMail => false | _ => true end) true)
    "/archive/a.zip" (Some (mkJobState SUBMITTED None None))
  = (inl tt,
     mkWState (Some (mkJobState FAILED (Some 5) (Some "http://dl/a.zip"%string)))
       [SetStatus PROCESSING; SetCompleted 5 "http://dl/a.zip";
        Mail CompletionMail; SetStatus FAILED; Mail ErrorMail; Ack]).
Proof. vm_compute. reflexivity. Qed.

(** C3 (code_bug): a failed completion mail turns the [completed] job into
    [failed]; the message is still acknowledged. *)
Theorem completion_mail_failure_marks_failed :
  let st := snd (run_callback (mkConfig (950 # 1) "http://dl")
    (mkEnv (Some true) 0 true (Exit 0) (Some (5 * 2 ^ 20)) (fun _ => true)
       (fun k => match k with CompletionMail => false | _ => true end) true)
    "/archive/a.zip" (Some (mkJobState SUBMITTED None None))) in
  In (SetCompleted 5 "http://dl/a.zip") (w_trace st)
  /\ option_map js_status (w_row st) = Some FAILED
  /\ last (w_trace st) Pull = Ack.
Proof.
  cbv zeta. rewrite completion_mail_failure_run. simpl.
  split; [right; left; reflexivity | split; reflexivity].
Qed.

(** C4 (code_bug): the same run writes the transition completed -> failed,
    which the state machine does not allow. *)
Theorem completion_mail_failure_completed_to_failed :
  let st := snd (run_callback (mkConfig (950 # 1) "http://dl")
    (mkEnv (Some true) 0 true (Exit 0) (Some (5 * 2 ^ 20)) (fun _ => true)
       (fun k => match k with CompletionMail => false | _ => true end) true)
    "/archive/a.zip" (Some (mkJobState SUBMITTED None None))) in
  transitions SUBMITTED (written_statuses (w_trace st))
    = [(SUBMITTED, PROCESSING); (PROCESSING, COMPLETED); (COMPLETED, FAILED)]
  /\ allowed_transition (COMPLETED, FAILED) = false.
Proof.
  cbv zeta. rewrite completion_mail_failure_run. split; reflexivity.
Qed.

End WorkerFacts.

(** * Token endpoints *)
Section TokenServiceFacts.
Import Tokens TokenService.

Lemma map_if_compose (g1 g2 : DownloadToken -> DownloadToken) (p : DownloadToken -> bool) (tbl : table) :
  map (fun r => if p r then g2 r else r) (map (fun r => if p r then g1 r else r) tbl)
  = map (fun r => if p r then (if p (g1 r) then g2 (g1 r) else g1 r) else r) tbl.
Proof.
  rewrite map_map. apply map_ext. intros r. destruct (p r) eqn:E; cbn; rewrite ?E; reflexivity.
Qed.

(** Each write of the endpoints touches a row in one of three ways: not at
    all, [set_expired], or a download of a valid token with that row's id
    (possibly followed by [set_expired]). *)
Lemma apply_op_rows op tbl :
  exists f, apply_op op tbl = map f tbl /\
  forall r, In r tbl ->
    f r = r \/ f r = set_expired r
    \/ exists now ip dt, In dt tbl /\ is_valid now dt = true
         /\ token_id r = token_id dt
         /\ (f r = bump now ip r \/ f r = set_expired (bump now ip r)).
Proof.
  destruct op as [now ip tok | n1 n2 n3 tok | now]; simpl.
  - unfold record_download.
    destruct (get_token tok tbl) as [dt|] eqn:Hg;
      [|exists (fun r => r); split; [symmetry; apply map_id | auto]].
    destruct (is_valid now dt) eqn:Hv; simpl;
      [|exists (fun r => r); split; [symmetry; apply map_id | auto]].
    assert (Hin : In dt tbl) by (apply (find_some _ _ Hg)).
    destruct (download_count dt + 1 >=? max_downloads dt); simpl;
      unfold mark_expired, update_download, update_where.
    + rewrite map_if_compose. eexists; split; [reflexivity|].
      intros r _. cbn beta. destruct (token_id r =? token_id dt) eqn:E; [|left; reflexivity].
      right; right. exists now, ip, dt. apply Z.eqb_eq in E.
      repeat split; auto. simpl. rewrite E, Z.eqb_refl. right. reflexivity.
    + eexists; split; [reflexivity|].
      intros r _. cbn beta. destruct (token_id r =? token_id dt) eqn:E; [|left; reflexivity].
      right; right. exists now, ip, dt. apply Z.eqb_eq in E.
      repeat split; auto.
  - unfold validate_download_token.
    destruct (get_token tok tbl) as [dt|];
      [|exists (fun r => r); split; [symmetry; apply map_id | auto]].
    destruct (validate_token_params n1 n2 dt) as [ok err].
    destruct ok; simpl; [exists (fun r => r); split; [symmetry; apply map_id | auto]|].
    destruct (should_expire n3 dt);
      [|exists (fun r => r); split; [symmetry; apply map_id | auto]].
    unfold mark_expired, update_where. eexists; split; [reflexivity|].
    intros r _. cbn beta. destruct (token_id r =? token_id dt); auto.
  - unfold expire_old_tokens; simpl. eexists; split; [reflexivity|].
    intros r _. cbn beta. destruct (sweep_match now r); auto.
Qed.

Lemma Forall2_map_self {A} (R : A -> A -> Prop) (f : A -> A) (l : list A) :
  (forall x, In x l -> R x (f x)) -> Forall2 R l (map f l).
Proof.
  induction l as [|x l IH]; simpl; intros H; constructor; auto.
Qed.

Lemma Forall2_trans_self {A} (R : A -> A -> Prop) (l1 l2 l3 : list A) :
  (forall x y z, R x y -> R y z -> R x z) ->
  Forall2 R l1 l2 -> Forall2 R l2 l3 -> Forall2 R l1 l3.
Proof.
  intros Ht H12. revert l3. induction H12; intros l3 H23; inversion H23; subst;
    constructor; eauto.
Qed.

Lemma NoDup_map_inj {A B} (g : A -> B) (l : list A) a b :
  NoDup (map g l) -> In a l -> In b l -> g a = g b -> a = b.
Proof.
  induction l as [|x l IH]; simpl; [tauto|].
  intros Hnd Ha Hb Heq. inversion Hnd as [|? ? Hx Hnd']; subst.
  destruct Ha as [<-|Ha], Hb as [<-|Hb]; auto.
  - exfalso. apply Hx. rewrite Heq. apply in_map. exact Hb.
  - exfalso. apply Hx. rewrite <- Heq. apply in_map. exact Ha.
Qed.

(** [validate_token_params] accepts exactly the tokens [is_valid] accepts;
    with a clock that does not run backwards between its two readings, the
    generic "Token is invalid" message is never chosen. *)
Theorem validate_token_params_reason n1 n2 t :
  n1 <= n2 ->
  (validate_token_params n1 n2 t = (true, None) <-> is_valid n1 t = true)
  /\ snd (validate_token_params n1 n2 t) <> Some TokenInvalid.
Proof.
  intros Hle. unfold validate_token_params.
  destruct (is_valid n1 t) eqn:Hv; simpl.
  - split; [tauto | discriminate].
  - destruct (TokenStatus_eqb (status t) ACTIVE) eqn:Hs; simpl;
      [|split; [split; discriminate | discriminate]].
    destruct (n2 >=? expires_at t) eqn:He; simpl;
      [split; [split; discriminate | discriminate]|].
    destruct (download_count t >=? max_downloads t) eqn:Hc; simpl;
      [split; [split; discriminate | discriminate]|].
    exfalso. apply TokenStatus_eqb_spec in Hs.
    rewrite Z.geb_leb, Z.leb_gt in He, Hc.
    assert (is_valid n1 t = true) by (apply is_valid_true_iff; repeat split; auto; lia).
    congruence.
Qed.

Lemma validate_token_params_reason_witness :
  validate_token_params 5 7 (create_token_data 0 1 "t"%string 7 3 0)
    = (false, Some TokenTimeExpired)
  /\ snd (validate_token_params 5 7 (create_token_data 0 1 "t"%string 7 3 0))
     <> Some TokenInvalid.
Proof.
  split; [reflexivity |].
  apply (proj2 (validate_token_params_reason 5 7 _ ltac:(lia))).
Defined.

(** Lazy expiry in [validate_download_token]: a valid token is reported
    valid and nothing is written; an active token that is no longer valid is
    flipped to [expired] by the validation; a disabled token is flipped to
    [expired] exactly when its time or count bound is crossed. *)
Theorem validate_download_token_lazy_expiry n1 n2 n3 tok tbl dt :
  n1 <= n3 -> tok_row tok tbl dt ->
  (is_valid n1 dt = true ->
     validate_download_token n1 n2 n3 tok tbl = (VValid dt, tbl))
  /\ (is_valid n1 dt = false -> status dt = ACTIVE ->
      get_token tok (snd (validate_download_token n1 n2 n3 tok tbl))
        = Some (set_expired dt))
  /\ (status dt = DISABLED ->
      get_token tok (snd (validate_download_token n1 n2 n3 tok tbl))
        = Some (if should_expire n3 dt then set_expired dt else dt)).
Proof.
  intros Hle Hrow.
  assert (Hexp : get_token tok (mark_expired (token_id dt) tbl) = Some (set_expired dt))
    by exact (proj1 (tok_row_update_where tok tbl dt set_expired set_expired_keys Hrow)).
  unfold validate_download_token. rewrite (proj1 Hrow).
  unfold validate_token_params.
  split; [|split].
  - intros Hv. rewrite Hv. reflexivity.
  - intros Hv Hs. rewrite Hv.
    assert (Hse : should_expire n3 dt = true).
    { unfold should_expire. destruct (n3 >=? expires_at dt) eqn:E; [reflexivity|].
      simpl. destruct (download_count dt >=? max_downloads dt) eqn:C; [reflexivity|].
      exfalso. rewrite Z.geb_leb, Z.leb_gt in E, C.
      assert (is_valid n1 dt = true) by (apply is_valid_true_iff; repeat split; auto; lia).
      congruence. }
    destruct (TokenStatus_eqb (status dt) ACTIVE), (n2 >=? expires_at dt),
             (download_count dt >=? max_downloads dt);
      simpl; rewrite Hse; exact Hexp.
  - intros Hs.
    assert (Hv : is_valid n1 dt = false) by (unfold is_valid; rewrite Hs; reflexivity).
    rewrite Hv. rewrite Hs. simpl.
    destruct (should_expire n3 dt); [exact Hexp | exact (proj1 Hrow)].
Qed.

Lemma validate_download_token_lazy_expiry_witness :
  get_token "abc"%string
    (snd (validate_download_token 100 100 100 "abc"%string
            [create_token_data 0 5 "abc"%string 7 3 0]))
  = Some (set_expired (create_token_data 0 5 "abc"%string 7 3 0)).
Proof.
  assert (Hrow : tok_row "abc"%string [create_token_data 0 5 "abc"%string 7 3 0]
                   (create_token_data 0 5 "abc"%string 7 3 0)).
  { split; [reflexivity | intros r [<- | []] _; reflexivity]. }
  apply (proj1 (proj2 (validate_download_token_lazy_expiry 100 100 100 "abc"%string
           [create_token_data 0 5 "abc"%string 7 3 0]
           (create_token_data 0 5 "abc"%string 7 3 0) ltac:(lia) Hrow))).
  - reflexivity.
  - reflexivity.
Defined.

(** [expire_old_tokens] changes only active rows whose [expires_at] is
    before [NOW()] or whose count reached the limit, turning them into
    [expired]; afterwards every active row is within both
    bounds; the returned count is the number of rows whose status changed. *)
Theorem expire_old_tokens_post now tbl :
  Forall2 (fun r r' => r' = r
             \/ (status r = ACTIVE
                 /\ (expires_at r < now \/ max_downloads r <= download_count r)
                 /\ r' = set_expired r))
    tbl (snd (expire_old_tokens now tbl))
  /\ (forall r', In r' (snd (expire_old_tokens now tbl)) -> status r' = ACTIVE ->
        now <= expires_at r' /\ download_count r' < max_downloads r')
  /\ fst (expire_old_tokens now tbl)
     = List.length (filter (fun p => negb (TokenStatus_eqb (status (fst p)) (status (snd p))))
                      (combine tbl (snd (expire_old_tokens now tbl)))).
Proof.
  unfold expire_old_tokens; simpl. split; [|split].
  - induction tbl as [|r tbl IH]; simpl; constructor; [|exact IH].
    destruct (sweep_match now r) eqn:E; [right | left; reflexivity].
    unfold sweep_match in E. apply andb_true_iff in E as [E E'].
    apply TokenStatus_eqb_spec in E. apply orb_true_iff in E' as [E' | E'].
    + apply Z.ltb_lt in E'. auto.
    + rewrite Z.geb_leb in E'. apply Z.leb_le in E'. auto.
  - intros r' Hr' Hs. apply in_map_iff in Hr' as [r [<- _]].
    destruct (sweep_match now r) eqn:E; [simpl in Hs; discriminate|].
    unfold sweep_match in E. rewrite Hs in E. simpl in E.
    apply orb_false_iff in E as [E1 E2].
    rewrite Z.ltb_ge in E1. rewrite Z.geb_leb, Z.leb_gt in E2. lia.
  - induction tbl as [|r tbl IH]; simpl; [reflexivity|].
    destruct (sweep_match now r) eqn:E; simpl.
    + unfold sweep_match in E. apply andb_true_iff in E as [E _].
      apply TokenStatus_eqb_spec in E. rewrite E. simpl. f_equal. exact IH.
    + destruct (status r); simpl; exact IH.
Qed.

(** The sweep and [is_valid] disagree at the boundary: an active token
    whose [expires_at] equals [NOW()] is no longer valid, yet the sweep
    (which tests [expires_at < NOW()]) leaves it active. *)
Theorem expire_old_tokens_boundary now tbl r :
  In r tbl -> status r = ACTIVE -> expires_at r = now ->
  download_count r < max_downloads r ->
  is_valid now r = false /\ In r (snd (expire_old_tokens now tbl)).
Proof.
  intros Hin Hs He Hc. split.
  - unfold is_valid. rewrite Hs. simpl.
    replace (now >=? expires_at r) with true; [reflexivity|].
    symmetry. apply Z.geb_le. lia.
  - unfold expire_old_tokens; simpl. apply in_map_iff. exists r. split; [|exact Hin].
    replace (sweep_match now r) with false; [reflexivity|].
    unfold sweep_match. rewrite Hs. simpl.
    replace (expires_at r <? now) with false by (symmetry; apply Z.ltb_ge; lia).
    replace (download_count r >=? max_downloads r) with false
      by (symmetry; rewrite Z.geb_leb; apply Z.leb_gt; lia).
    reflexivity.
Qed.

Lemma expire_old_tokens_boundary_witness :
  is_valid us_per_hour (create_token_data 0 5 "abc"%string 7 3 1) = false
  /\ In (create_token_data 0 5 "abc"%string 7 3 1)
        (snd (expire_old_tokens us_per_hour [create_token_data 0 5 "abc"%string 7 3 1])).
Proof.
  apply expire_old_tokens_boundary.
  - now left.
  - reflexivity.
  - reflexivity.
  - simpl. lia.
Defined.

(** Whatever sequence of [record_download], [validate_download_token] and
    [expire_old_tokens] calls runs, each row keeps its id, token, job,
    limit, creation and expiry times; its download count never decreases;
    its status either stays or becomes [expired] (no write re-activates or
    disables a token). *)
Theorem run_ops_row_evolution ops tbl :
  Forall2 (fun r r' =>
      token_id r' = token_id r /\ token r' = token r /\ job_id r' = job_id r
      /\ max_downloads r' = max_downloads r /\ created_time r' = created_time r
      /\ expires_at r' = expires_at r /\ download_count r <= download_count r'
      /\ (status r' = status r \/ status r' = EXPIRED))
    tbl (run_ops ops tbl).
Proof.
  revert tbl. induction ops as [|op ops IH]; intros tbl; simpl.
  - rewrite <- (map_id tbl) at 2. apply Forall2_map_self.
    intros r _. repeat split; auto; lia.
  - eapply Forall2_trans_self; [| | exact (IH (apply_op op tbl))].
    + intros x y z Hxy Hyz. intuition (try congruence; try lia).
    + destruct (apply_op_rows op tbl) as [f [-> Hf]].
      apply Forall2_map_self. intros r Hr.
      destruct (Hf r Hr) as [-> | [-> | (now & ip & dt & _ & _ & _ & [-> | ->])]];
        simpl; repeat split; auto; lia.
Qed.

(** Given distinct [token_id]s (the primary key), no sequence of endpoint
    calls takes a row's [download_count] above its [max_downloads]. *)
Theorem run_ops_count_bounded ops tbl :
  NoDup (map token_id tbl) ->
  Forall (fun r => download_count r <= max_downloads r) tbl ->
  Forall (fun r => download_count r <= max_downloads r) (run_ops ops tbl).
Proof.
  revert tbl. induction ops as [|op ops IH]; intros tbl Hnd Hb; simpl; [exact Hb|].
  destruct (apply_op_rows op tbl) as [f [Heq Hf]]. rewrite Heq.
  apply IH.
  - replace (map token_id (map f tbl)) with (map token_id tbl); [exact Hnd|].
    rewrite map_map. apply map_ext_in. intros r Hr.
    destruct (Hf r Hr) as [-> | [-> | (now & ip & dt & _ & _ & _ & [-> | ->])]];
      reflexivity.
  - rewrite Forall_forall in Hb |- *. intros r' Hr'.
    apply in_map_iff in Hr' as [r [<- Hr]].
    destruct (Hf r Hr) as [-> | [-> | (now & ip & dt & Hdt & Hv & Hid & Hfr)]];
      [apply Hb; exact Hr | apply (Hb r Hr) |].
    assert (r = dt) as -> by exact (NoDup_map_inj token_id tbl r dt Hnd Hr Hdt Hid).
    apply is_valid_true_iff in Hv as (_ & _ & Hc).
    destruct Hfr as [-> | ->]; simpl; lia.
Qed.

Lemma run_ops_count_bounded_witness :
  Forall (fun r => download_count r <= max_downloads r)
    (run_ops [OpRecord 1 None "abc"%string; OpRecord 2 None "abc"%string;
              OpValidate 3 3 3 "abc"%string; OpRecord 4 None "abc"%string]
       [create_token_data 0 5 "abc"%string 7 2 1; create_token_data 0 6 "xyz"%string 7 2 1]).
Proof.
  apply run_ops_count_bounded.
  - repeat constructor; simpl; intuition discriminate.
  - repeat constructor; simpl; lia.
Defined.

End TokenServiceFacts.

(** * Jobs and token issuing *)
Section JobsFacts.
Import Tokens Jobs.

Lemma find_app {A} (p : A -> bool) (l1 l2 : list A) :
  find p (l1 ++ l2) = match find p l1 with Some x => Some x | None => find p l2 end.
Proof.
  induction l1 as [|x l1 IH]; simpl; [reflexivity|]. destruct (p x); auto.
Qed.

Lemma find_none_all {A} (p : A -> bool) (l : list A) :
  (forall x, In x l -> p x = false) -> find p l = None.
Proof.
  induction l as [|x l IH]; simpl; intros H; [reflexivity|].
  rewrite (H x (or_introl eq_refl)). apply IH. auto.
Qed.

(** [generate_download_token] issues a token only for an existing job that
    belongs to the requesting email and is [completed]; the issued token is
    active, unused, expires [expiry_hours] after [now] and is appended to the
    table; every refusal leaves the table unchanged. *)
Theorem generate_download_token_result now tid tok req jobs tbl :
  (forall e, fst (generate_download_token now tid tok req jobs tbl) = inl e ->
     snd (generate_download_token now tid tok req jobs tbl) = tbl)
  /\ (forall t, fst (generate_download_token now tid tok req jobs tbl) = inr t ->
       (exists j, In j jobs /\ uj_job_id j = g_job_id req
          /\ uj_user_email j = g_user_email req /\ uj_job_status j = COMPLETED)
       /\ status t = ACTIVE /\ download_count t = 0 /\ token t = tok
       /\ job_id t = g_job_id req /\ max_downloads t = g_max_downloads req
       /\ expires_at t = now + g_expiry_hours req * us_per_hour
       /\ snd (generate_download_token now tid tok req jobs tbl) = tbl ++ [t]).
Proof.
  unfold generate_download_token.
  destruct (find (fun j => uj_job_id j =? g_job_id req) jobs) as [j|] eqn:Hf;
    [|split; [reflexivity | discriminate]].
  destruct (String.eqb (uj_user_email j) (g_user_email req)) eqn:He; simpl;
    [|split; [reflexivity | discriminate]].
  destruct (JobStatus_eqb (uj_job_status j) COMPLETED) eqn:Hs; simpl;
    [|split; [reflexivity | discriminate]].
  split; [discriminate|]. intros t Ht. injection Ht as <-.
  apply find_some in Hf as [Hin Hid]. apply Z.eqb_eq in Hid.
  apply String.eqb_eq in He.
  assert (uj_job_status j = COMPLETED) by (destruct (uj_job_status j); try discriminate; reflexivity).
  repeat split; auto. exists j. auto.
Qed.

(** A job just created by [create_job] is [submitted]: asking a token for
    it yields 400 to its owner and 403 to anybody else, and issues nothing
    (given the store's new id is not already taken). *)
Theorem create_job_then_generate new_id now email file jobs now' tid tok req tbl :
  (forall j, In j jobs -> uj_job_id j <> new_id) ->
  g_job_id req = new_id ->
  generate_download_token now' tid tok req (snd (create_job new_id now email file jobs)) tbl
  = (inl (if String.eqb email (g_user_email req) then NotCompleted400 else NotOwner403), tbl).
Proof.
  intros Hfresh Hid. unfold generate_download_token, create_job; simpl.
  rewrite find_app, find_none_all.
  - simpl. rewrite Hid, Z.eqb_refl.
    cbn [uj_user_email uj_job_status].
    destruct (String.eqb email (g_user_email req)); reflexivity.
  - intros j Hj. apply Z.eqb_neq. rewrite Hid. apply Hfresh. exact Hj.
Qed.

Lemma create_job_then_generate_witness :
  generate_download_token 10 1 "t"%string (mkGenReq 2 "a@x"%string 3 24)
    (snd (create_job 2 5 "a@x"%string "f.nc"%string
            [mkUserJob 1 "a@x"%string "g.nc"%string COMPLETED 0])) []
  = (inl NotCompleted400, []).
Proof.
  apply (create_job_then_generate 2 5 "a@x"%string "f.nc"%string
           [mkUserJob 1 "a@x"%string "g.nc"%string COMPLETED 0] 10 1 "t"%string
           (mkGenReq 2 "a@x"%string 3 24) []).
  - intros j [<- | []]. simpl. discriminate.
  - reflexivity.
Defined.

(** A freshly issued token (its string not already in the table) with a
    positive download limit is accepted by [record_download] at any time
    before its expiry, which counts the first download. *)
Theorem generate_then_record now tid tok req jobs tbl t tbl' t' ip :
  (forall r, In r tbl -> token r <> tok) ->
  generate_download_token now tid tok req jobs tbl = (inr t, tbl') ->
  0 < g_max_downloads req -> t' < now + g_expiry_hours req * us_per_hour ->
  fst (record_download t' ip tok tbl') = inr 1.
Proof.
  intros Hfresh Hgen Hmax Ht.
  destruct (generate_download_token_result now tid tok req jobs tbl) as [_ H].
  rewrite Hgen in H. simpl in H.
  destruct (H t eq_refl) as (_ & Hs & Hc & Htok & _ & Hm & He & Htbl).
  subst tbl'. unfold record_download, get_token.
  rewrite find_app, find_none_all.
  - simpl. rewrite Htok, String.eqb_refl.
    replace (is_valid t' t) with true.
    + simpl. rewrite Hc. reflexivity.
    + symmetry. apply is_valid_true_iff. repeat split; auto; lia.
  - intros r Hr. apply String.eqb_neq. apply Hfresh. exact Hr.
Qed.

Lemma generate_then_record_witness :
  fst (record_download us_per_hour None "t"%string
         (snd (generate_download_token 0 1 "t"%string (mkGenReq 2 "a@x"%string 3 24)
                 [mkUserJob 2 "a@x"%string "f.nc"%string COMPLETED 0] []))) = inr 1.
Proof.
  apply (generate_then_record 0 1 "t"%string (mkGenReq 2 "a@x"%string 3 24)
           [mkUserJob 2 "a@x"%string "f.nc"%string COMPLETED 0] []
           (create_token_data 0 1 "t"%string 2 3 24)).
  - intros r [].
  - reflexivity.
  - simpl. lia.
  - simpl. unfold us_per_hour, us_per_sec. lia.
Defined.

End JobsFacts.

(** * Submission gateway: resubmission *)
Section GatewayWindowFacts.
Import Gateway.




End GatewayWindowFacts.

(** * Retrieval worker: effects of one delivery *)
Section WorkerTraceFacts.
Import Worker.

(** As [env_cases], keeping the outcome of the exit-code test. *)
Ltac env_cases_eq :=
  repeat (cbn -[hasEnoughSpace Z.shiftr basename];
    match goal with
    | |- context [env_db_ok ?e ?s] => destruct (env_db_ok e s)
    | |- context [env_mail_ok ?e ?k] => destruct (env_mail_ok e k)
    | |- context [env_ack_ok ?e] => destruct (env_ack_ok e)
    | |- context [env_pull ?e] => destruct (env_pull e) as [?c|]
    | |- context [Z.eqb ?c 0] => let E := fresh "Ec" in destruct (Z.eqb c 0) eqn:E
    | |- context [env_file_size ?e] => destruct (env_file_size e)
    end).

Ltac open_callback :=
  unfold run_callback, callback, cacheHit;
  destruct (env_scan_ok _), (hasEnoughSpace (env_usage _) (staging_usage_threshold _)),
           (env_in_cache _) as [[|]|];
  unfold updateJobStatus, updateCompleted, sendMail, pullSda, getsize, basic_ack.

(** A delivery whose staging scan completes is settled exactly once:
    either rejected (never with requeue) or acknowledged, never both and
    never neither; when the scan raises, the callback leaves before either. *)
Theorem callback_settles_once cfg env path row0 :
  List.length (filter (fun e => match e with Reject _ | Ack => true | _ => false end)
                 (w_trace (snd (run_callback cfg env path row0))))
  = (if env_scan_ok env then 1 else 0)%nat
  /\ ~ In (Reject true) (w_trace (snd (run_callback cfg env path row0))).
Proof.
  open_callback; env_cases_eq; split; try reflexivity; simpl; intuition discriminate.
Qed.

(** The retrieval tool runs at most once, and exactly when the file is not
    in the cache, the scan of the staging area completes and finds room,
    and the [processing] write commits. *)
Theorem callback_pull_count cfg env path row0 :
  List.length (filter (fun e => match e with Pull => true | _ => false end)
                 (w_trace (snd (run_callback cfg env path row0))))
  = (if negb (env_scan_ok env) then 0
     else if cacheHit env then 0
     else if hasEnoughSpace (env_usage env) (staging_usage_threshold cfg)
     then if env_db_ok env PROCESSING then 1 else 0
     else 0)%nat.
Proof.
  open_callback; env_cases_eq; reflexivity.
Qed.

(** The tool is killed and the local file removed exactly when the tool ran
    and did not exit with code 0. *)
Theorem callback_cleanup_iff_pull_failed cfg env path row0 :
  (In RemoveLocal (w_trace (snd (run_callback cfg env path row0))) <->
     In Pull (w_trace (snd (run_callback cfg env path row0))) /\ env_pull env <> Exit 0)
  /\ (In Kill (w_trace (snd (run_callback cfg env path row0))) <->
     In RemoveLocal (w_trace (snd (run_callback cfg env path row0)))).
Proof.
  open_callback; env_cases_eq;
    rewrite ?Z.eqb_eq, ?Z.eqb_neq in *; subst; simpl;
    intuition (try discriminate; try congruence).
Qed.

(** A [completed] write happens only when the file is staged (a cache hit
    or an exit code 0); its size is the staged size in whole MiB (floor)
    and its url is the download server, a slash and the file's basename. *)
Theorem callback_completed_write cfg env path row0 sz u :
  In (SetCompleted sz u) (w_trace (snd (run_callback cfg env path row0))) ->
  (cacheHit env = true \/ env_pull env = Exit 0)
  /\ (exists s, env_file_size env = Some s /\ sz = s / 2 ^ 20)
  /\ u = (http_download_server cfg ++ "/" ++ basename path)%string.
Proof.
  unfold cacheHit.
  open_callback; env_cases_eq;
    rewrite ?Z.eqb_eq, ?Z.eqb_neq in *; subst; simpl;
    intros H; repeat (destruct H as [H | H]; try discriminate); try contradiction;
    injection H as <- <-;
    (split; [auto | split; [eexists; split; [reflexivity | apply Z.shiftr_div_pow2; lia] | reflexivity]]).
Qed.

Lemma callback_completed_write_witness :
  (cacheHit (mkEnv (Some false) 0 true (Exit 0) (Some (3 * 2 ^ 20 + 5))
               (fun _ => true) (fun _ => true) true) = true
   \/ Exit 0 = Exit 0)
  /\ (exists s, Some (3 * 2 ^ 20 + 5) = Some s /\ 3 = s / 2 ^ 20)
  /\ "http://dl/a.zip"%string = ("http://dl" ++ "/" ++ basename "/archive/a.zip")%string.
Proof.
  apply (callback_completed_write (mkConfig (950 # 1) "http://dl")
           (mkEnv (Some false) 0 true (Exit 0) (Some (3 * 2 ^ 20 + 5))
              (fun _ => true) (fun _ => true) true)
           "/archive/a.zip" None 3 "http://dl/a.zip").
  vm_compute. right; right; left. reflexivity.
Defined.

(** When the [failed] write commits, the callback raises only when the
    scan of the staging area raises or on the cancellation path; everything
    else (failed pull, size, mails, ack) is absorbed. *)
Theorem callback_raises_only_when_cancelling cfg env path row0 :
  env_db_ok env FAILED = true ->
  fst (run_callback cfg env path row0) = inl tt
  \/ env_scan_ok env = false
  \/ In (Reject false) (w_trace (snd (run_callback cfg env path row0))).
Proof.
  intros Hf. open_callback; env_cases_eq; simpl; try rewrite Hf; simpl; auto;
    try discriminate.
Qed.

Lemma callback_raises_only_when_cancelling_witness :
  fst (run_callback (mkConfig (950 # 1) "http://dl")
         (mkEnv (Some false) 0 true Timeout None (fun _ => true) (fun _ => false) false)
         "/archive/a.zip" None) = inl tt
  \/ true = false
  \/ In (Reject false) (w_trace (snd (run_callback (mkConfig (950 # 1) "http://dl")
         (mkEnv (Some false) 0 true Timeout None (fun _ => true) (fun _ => false) false)
         "/archive/a.zip" None))).
Proof.
  apply callback_raises_only_when_cancelling. reflexivity.
Defined.

(** With the [processing] write and the completion mail succeeding, every
    status change the callback makes from [submitted] is a transition of
    the job state machine. *)
Theorem callback_transitions_allowed cfg env path row0 :
  env_db_ok env PROCESSING = true -> env_mail_ok env CompletionMail = true ->
  forallb allowed_transition
    (transitions SUBMITTED (written_statuses (w_trace (snd (run_callback cfg env path row0)))))
  = true.
Proof.
  intros Hp Hm. open_callback; rewrite ?Hp, ?Hm; env_cases_eq; rewrite ?Hp, ?Hm;
    try reflexivity; try discriminate.
Qed.

Lemma callback_transitions_allowed_witness :
  forallb allowed_transition
    (transitions SUBMITTED (written_statuses (w_trace (snd (run_callback
       (mkConfig (950 # 1) "http://dl")
       (mkEnv (Some false) 0 true (Exit 0) (Some 7)
          (fun s => negb (JobStatus_eqb s COMPLETED)) (fun _ => true) true)
       "/archive/a.zip" None))))) = true.
Proof.
  apply callback_transitions_allowed; reflexivity.
Defined.

End WorkerTraceFacts.

(** * Staging cache *)
Section CacheFacts.
Import Cache.

Lemma poll_pos s z obs o n : poll s z obs = Some (o, n) -> (1 <= n)%nat.
Proof.
  revert s z n. induction obs as [|[c|] rest IH]; intros s z n H; simpl in H;
    [discriminate | | injection H as _ <-; lia].
  destruct (c =? 0).
  - destruct (z + sleepInSecs <? totalSizeInZeroWaitLimitInSecs).
    + destruct (poll s (z + sleepInSecs) rest) as [[o' n']|]; simpl in H;
        [injection H as _ <-; lia | discriminate].
    + injection H as _ <-. lia.
  - destruct (negb (c =? s)).
    + destruct (poll c z rest) as [[o' n']|]; simpl in H;
        [injection H as _ <-; lia | discriminate].
    + injection H as _ <-. lia.
Qed.

Lemma count_zero_nonzero c l : c <> 0 -> count_zero (Some c :: l) = count_zero l.
Proof. destruct c; simpl; congruence. Qed.

Lemma poll_zero_budget s k z obs o n :
  (k < 10)%nat -> z = 60 * Z.of_nat k -> poll s z obs = Some (o, n) ->
  (k + count_zero (firstn n obs) <= 10)%nat
  /\ (o = DeadFileRemoved <-> (k + count_zero (firstn n obs) = 10)%nat).
Proof.
  revert s k z n. induction obs as [|[c|] rest IH]; intros s k z n Hk Hz H; simpl in H;
    [discriminate | | injection H as <- <-; simpl; split; [lia | split; [discriminate | lia]]].
  destruct (c =? 0) eqn:Ec.
  - apply Z.eqb_eq in Ec. subst c.
    unfold sleepInSecs, totalSizeInZeroWaitLimitInSecs in H.
    destruct (z + 60 <? 600) eqn:L.
    + apply Z.ltb_lt in L.
      destruct (poll s (z + 60) rest) as [[o' n']|] eqn:Hp;
        simpl in H; [|discriminate]. injection H as <- <-.
      destruct (IH s (S k) (z + 60) n' ltac:(lia) ltac:(lia) Hp) as [H1 H2].
      simpl. split; [lia|]. rewrite H2. lia.
    + apply Z.ltb_ge in L. injection H as <- <-. simpl. split; [lia|].
      split; [intros _; lia | reflexivity].
  - apply Z.eqb_neq in Ec.
    destruct (negb (c =? s)).
    + destruct (poll c z rest) as [[o' n']|] eqn:Hp;
        simpl in H; [|discriminate]. injection H as <- <-.
      destruct (IH c k z n' Hk Hz Hp) as [H1 H2].
      cbn [firstn]. rewrite count_zero_nonzero by exact Ec. auto.
    + injection H as <- <-. cbn [firstn].
      rewrite count_zero_nonzero by exact Ec. simpl. split; [lia|].
      split; [discriminate | lia].
Qed.

(** [isInCache] counts zero-size polls over the whole wait, not in a row:
    it gives up and deletes the file exactly on the tenth zero-size
    observation, whatever non-zero sizes came in between, and never sees an
    eleventh. *)
Theorem isInCache_zero_budget s obs o n :
  isInCache (Some s) obs = Some (o, n) ->
  (1 <= n)%nat /\ (count_zero (firstn n obs) <= 10)%nat
  /\ (o = DeadFileRemoved <-> count_zero (firstn n obs) = 10%nat).
Proof.
  simpl. intros H. split; [exact (poll_pos _ _ _ _ _ H)|].
  exact (poll_zero_budget s 0 0 obs o n ltac:(lia) eq_refl H).
Qed.

Lemma isInCache_zero_budget_witness :
  let obs := [Some 0; Some 7; Some 0; Some 8; Some 0; Some 7; Some 0; Some 8;
              Some 0; Some 7; Some 0; Some 8; Some 0; Some 7; Some 0; Some 8;
              Some 0; Some 7; Some 0; Some 8] in
  (1 <= 19)%nat /\ (count_zero (firstn 19 obs) <= 10)%nat
  /\ (DeadFileRemoved = DeadFileRemoved <-> count_zero (firstn 19 obs) = 10%nat).
Proof.
  intros obs. apply (isInCache_zero_budget 5 obs). vm_compute. reflexivity.
Defined.

Lemma poll_last s z obs o n :
  poll s z obs = Some (o, n) ->
  match o with
  | CacheHit => exists c, nth_error obs (n - 1) = Some (Some c) /\ c <> 0
                  /\ c = ref_size s (firstn (n - 1) obs)
  | CacheMiss => nth_error obs (n - 1) = Some None
  | DeadFileRemoved => nth_error obs (n - 1) = Some (Some 0)
  end.
Proof.
  revert s z n. induction obs as [|[c|] rest IH]; intros s z n H; simpl in H;
    [discriminate | | injection H as <- <-; reflexivity].
  destruct (c =? 0) eqn:Ec.
  - apply Z.eqb_eq in Ec. subst c.
    destruct (z + sleepInSecs <? totalSizeInZeroWaitLimitInSecs).
    + destruct (poll s (z + sleepInSecs) rest) as [[o' n']|] eqn:Hp;
        simpl in H; [|discriminate]. injection H as <- <-.
      pose proof (poll_pos _ _ _ _ _ Hp) as Hpos.
      specialize (IH s _ n' Hp).
      replace (S n' - 1)%nat with (S (n' - 1)) by lia. cbn [nth_error firstn ref_size].
      rewrite Z.eqb_refl. exact IH.
    + injection H as <- <-. reflexivity.
  - destruct (negb (c =? s)) eqn:Es.
    + destruct (poll c z rest) as [[o' n']|] eqn:Hp;
        simpl in H; [|discriminate]. injection H as <- <-.
      pose proof (poll_pos _ _ _ _ _ Hp) as Hpos.
      specialize (IH c z n' Hp).
      replace (S n' - 1)%nat with (S (n' - 1)) by lia. cbn [nth_error firstn ref_size].
      rewrite Ec. exact IH.
    + injection H as <- <-. apply negb_false_iff, Z.eqb_eq in Es.
      apply Z.eqb_neq in Ec. exists c. simpl. auto.
Qed.

(** What [isInCache] decides rests on its last poll: a hit is a non-zero
    size equal to the last non-zero size seen before it (the initial one
    included), a miss is a vanished file, a removal a zero size. *)
Theorem isInCache_last_observation s obs o n :
  isInCache (Some s) obs = Some (o, n) ->
  match o with
  | CacheHit => exists c, nth_error obs (n - 1) = Some (Some c) /\ c <> 0
                  /\ c = ref_size s (firstn (n - 1) obs)
  | CacheMiss => nth_error obs (n - 1) = Some None
  | DeadFileRemoved => nth_error obs (n - 1) = Some (Some 0)
  end.
Proof.
  simpl. apply poll_last.
Qed.

Lemma isInCache_last_observation_witness :
  exists c, nth_error [Some 0; Some 9; Some 0; Some 9] 3 = Some (Some c) /\ c <> 0
    /\ c = ref_size 4 (firstn 3 [Some 0; Some 9; Some 0; Some 9]).
Proof.
  exact (isInCache_last_observation 4 [Some 0; Some 9; Some 0; Some 9] CacheHit 4 eq_refl).
Defined.

Lemma fold_left_add l a : fold_left Z.add l a = a + fold_right Z.add 0 l.
Proof.
  revert a. induction l as [|x l IH]; intros a; simpl; [lia|]. rewrite IH. lia.
Qed.

Lemma hasEnoughSpace_antitone a b th :
  a <= b -> Worker.hasEnoughSpace b th = true -> Worker.hasEnoughSpace a th = true.
Proof.
  unfold Worker.hasEnoughSpace. intros Hab Hb.
  apply negb_true_iff in Hb. apply negb_true_iff.
  apply not_true_iff_false. intros Ha. apply Qle_bool_iff in Ha.
  apply not_true_iff_false in Hb. apply Hb. apply Qle_bool_iff.
  eapply Qle_trans; [exact Ha|]. unfold Qdiv.
  apply Qmult_le_compat_r; [rewrite <- Zle_Qle; exact Hab|].
  apply Qinv_le_0_compat. rewrite <- (Qmult_0_l 1). unfold Qle. simpl. lia.
Qed.

(** The space check does not depend on the order [os.scandir] lists the
    staging area in, and adding files never turns a refusal into an
    acceptance. *)
Theorem hasEnoughSpaceDir_order_monotone entries entries' more th :
  Permutation entries entries' -> Forall (fun x => 0 <= x) more ->
  hasEnoughSpaceDir entries' th = hasEnoughSpaceDir entries th
  /\ (hasEnoughSpaceDir (entries ++ more) th = true -> hasEnoughSpaceDir entries th = true).
Proof.
  intros Hp Hm. unfold hasEnoughSpaceDir, dir_usage. rewrite !fold_left_add.
  split.
  - f_equal. induction Hp; simpl; lia.
  - apply hasEnoughSpace_antitone. rewrite fold_right_app.
    assert (0 <= fold_right Z.add 0 more)
      by (induction Hm; simpl; lia).
    assert (forall l a, fold_right Z.add a l = a + fold_right Z.add 0 l) as Hfr
      by (induction l; intros; simpl; [lia | rewrite IHl; lia]).
    rewrite (Hfr entries (fold_right Z.add 0 more)). lia.
Qed.

Lemma hasEnoughSpaceDir_order_monotone_witness :
  hasEnoughSpaceDir [3; 5 * 2 ^ 30] (6 # 1) = hasEnoughSpaceDir [5 * 2 ^ 30; 3] (6 # 1)
  /\ (hasEnoughSpaceDir ([5 * 2 ^ 30; 3] ++ [2 ^ 29]) (6 # 1) = true ->
      hasEnoughSpaceDir [5 * 2 ^ 30; 3] (6 # 1) = true).
Proof.
  apply hasEnoughSpaceDir_order_monotone.
  - apply perm_swap.
  - repeat constructor; lia.
Defined.

End CacheFacts.

(** * Download limit over a sequence of calls *)
Section DownloadBoundFacts.
Import Tokens.

(** However many [record_download] calls are made on one token, and at
    whatever times, at most [max_downloads - download_count] of them
    succeed, and no success reports a count above [max_downloads]. *)
Theorem run_downloads_bounded tok calls tbl dt :
  tok_row tok tbl dt -> download_count dt <= max_downloads dt ->
  (List.length (filter (fun p => match fst p with inr _ => true | inl _ => false end)
                  (run_downloads tok calls tbl))
   <= Z.to_nat (max_downloads dt - download_count dt))%nat
  /\ (forall n o, In (inr n, o) (run_downloads tok calls tbl) -> n <= max_downloads dt).
Proof.
  revert tbl dt. induction calls as [|[now ip] rest IH]; intros tbl dt Hrow Hle;
    simpl; [split; [lia | tauto]|].
  destruct (is_valid now dt) eqn:Hv.
  - destruct (record_download_ok now ip tok tbl dt Hrow Hv) as [tbl' [Hrec Hrow']].
    rewrite Hrec. simpl.
    pose proof (proj1 (is_valid_true_iff now dt) Hv) as (_ & _ & Hc).
    set (dt' := if download_count dt + 1 >=? max_downloads dt
                then set_expired (bump now ip dt) else bump now ip dt) in Hrow'.
    assert (Hdt' : download_count dt' = download_count dt + 1
                   /\ max_downloads dt' = max_downloads dt)
      by (unfold dt'; destruct (_ >=? _); split; reflexivity).
    destruct Hdt' as [Hc' Hm'].
    destruct (IH tbl' dt' Hrow' ltac:(lia)) as [IH1 IH2].
    rewrite Hc', Hm' in IH1. rewrite Hm' in IH2. split.
    + apply (Nat.le_trans _ (S (Z.to_nat (max_downloads dt - (download_count dt + 1))))).
      * apply le_n_S. exact IH1.
      * lia.
    + intros n o [Hn | Hn]; [injection Hn as <- _; lia | exact (IH2 n o Hn)].
  - rewrite (record_download_forbidden now ip tok tbl dt (proj1 Hrow) Hv). simpl.
    destruct (IH tbl dt Hrow Hle) as [IH1 IH2]. split; [exact IH1|].
    intros n o [Hn | Hn]; [discriminate | exact (IH2 n o Hn)].
Qed.

Lemma run_downloads_bounded_witness :
  Nat.le (List.length (filter (fun p => match fst p with inr _ => true | inl _ => false end)
     (run_downloads "abc"%string [(1, None); (2, None); (3, None); (4, None)]
        [create_token_data 0 5 "abc"%string 7 2 1])))
   (Z.to_nat (2 - 0))
  /\ (forall n o, In (inr n, o)
        (run_downloads "abc"%string [(1, None); (2, None); (3, None); (4, None)]
           [create_token_data 0 5 "abc"%string 7 2 1]) -> n <= 2).
Proof.
  apply (run_downloads_bounded "abc"%string [(1, None); (2, None); (3, None); (4, None)]
           [create_token_data 0 5 "abc"%string 7 2 1] (create_token_data 0 5 "abc"%string 7 2 1)).
  - split; [reflexivity | intros r [<- | []] _; reflexivity].
  - simpl. lia.
Defined.

End DownloadBoundFacts.
